(** * Snap-It: the snapshot handler of [snap_it.py]

    A shallow embedding of [SnapperGUI.take_snapshot] and of the string
    glue it is made of, with the properties of the handler proved over it.

    Python's [str] is a sequence of Unicode code points; it is modelled
    as a list of code points ([N]).  The window is a record of the three
    widgets the handler touches, extended with what the handler makes
    observable: the dialogs shown, the log, and the external processes
    spawned.  The operating system is a parameter: a state and a function
    that runs one command in it. *)

From Stdlib Require Import List NArith ZArith Bool Ascii String Lia.
Import ListNotations.

Set Implicit Arguments.

(** ** Python strings *)

Module PyStr.

Definition char := N.
Definition str := list char.

(** An ASCII literal of the source, as code points. *)
Definition u (s : string) : str :=
  map N_of_ascii (list_ascii_of_string s).

(** [Py_UNICODE_ISSPACE]: the characters [str.strip()] removes and
    [\s] matches. *)
Definition isspace (c : char) : bool :=
  ((9 <=? c) && (c <=? 13) || (28 <=? c) && (c <=? 32)
   || (c =? 133) || (c =? 160) || (c =? 5760)
   || (8192 <=? c) && (c <=? 8202)
   || (c =? 8232) || (c =? 8233) || (c =? 8239) || (c =? 8287)
   || (c =? 12288))%N.

Fixpoint lstrip (s : str) : str :=
  match s with
  | c :: s' => if isspace c then lstrip s' else s
  | [] => []
  end.

Definition rstrip (s : str) : str := rev (lstrip (rev s)).

(** [s.strip()] *)
Definition strip (s : str) : str := rstrip (lstrip s).

(** [s.split(sep)] for a separator of one character: one more piece
    than there are separators, empty pieces kept. *)
Fixpoint split (sep : char) (s : str) : list str :=
  match s with
  | [] => [[]]
  | c :: s' =>
      if (c =? sep)%N then [] :: split sep s'
      else match split sep s' with
           | w :: ws => (c :: w) :: ws
           | [] => [[c]]
           end
  end.

(** [s.startswith(p)] *)
Fixpoint startswith (p s : str) : bool :=
  match p, s with
  | [], _ => true
  | a :: p', b :: s' => (a =? b)%N && startswith p' s'
  | _ :: _, [] => false
  end.

(** [p in s] *)
Fixpoint contains (p s : str) : bool :=
  startswith p s ||
  match s with
  | [] => false
  | _ :: s' => contains p s'
  end.

(** Truth value of a string: [not s] holds of the empty string only. *)
Definition falsy (s : str) : bool :=
  match s with [] => true | _ :: _ => false end.

Definition nl : char := 10%N.        (* '\n' *)
Definition bar : char := 9474%N.     (* U+2502, the box-drawing bar *)

End PyStr.
Import PyStr.

(** ** The size pattern

    [re.search(r'(\d+\.?\d*\s*[KMGTP]?i?B)', line)]: a backtracking
    matcher with the priorities of Python's engine (a greedy repetition
    takes all it can and gives back one character at a time, an optional
    item is tried present before absent), tried at every position from
    the left.  A continuation stands for the rest of the pattern and
    answers with the number of characters it matched. *)

Module Re.

Section Engine.

(** [Py_UNICODE_ISDECIMAL], the interpreter's table of decimal
    digits, which [\d] consults. *)
Variable isdecimal : char -> bool.

Definition cont := str -> option nat.

Definition one (p : char -> bool) (k : cont) : cont :=
  fun s =>
    match s with
    | c :: s' => if p c then option_map S (k s') else None
    | [] => None
    end.

Definition opt (p : char -> bool) (k : cont) : cont :=
  fun s =>
    match one p k s with
    | Some n => Some n
    | None => k s
    end.

Fixpoint star (p : char -> bool) (k : cont) (s : str) : option nat :=
  match s with
  | c :: s' =>
      if p c then
        match star p k s' with
        | Some n => Some (S n)
        | None => k s
        end
      else k s
  | [] => k []
  end.

Definition plus (p : char -> bool) (k : cont) : cont :=
  one p (star p k).

Definition is_dot (c : char) : bool := (c =? 46)%N.
Definition is_unit (c : char) : bool :=
  ((c =? 75) || (c =? 77) || (c =? 71) || (c =? 84) || (c =? 80))%N.
Definition is_i (c : char) : bool := (c =? 105)%N.
Definition is_B (c : char) : bool := (c =? 66)%N.

Definition accept : cont := fun _ => Some 0.

(** The pattern matched at the head of [s]: the length of the match. *)
Definition size_pattern : cont :=
  plus isdecimal
    (opt is_dot
       (star isdecimal
          (star isspace
             (opt is_unit
                (opt is_i
                   (one is_B accept)))))).

(** [re.search(...)] followed by [.group(1)]: the leftmost match. *)
Fixpoint search (s : str) : option str :=
  match size_pattern s with
  | Some n => Some (firstn n s)
  | None =>
      match s with
      | [] => None
      | _ :: s' => search s'
      end
  end.

End Engine.

(** The ASCII digits: what the table holds below U+0080. *)
Definition ascii_digit (c : char) : bool := ((48 <=? c) && (c <=? 57))%N.

(** *** The language of the pattern

    What the pattern denotes, item by item, with no reference to the
    order in which the matcher tries things. *)

Definition lang := str -> Prop.

Definition l_end : lang := fun t => t = [].

Definition l_one (p : char -> bool) (L : lang) : lang :=
  fun t => exists c t', t = c :: t' /\ p c = true /\ L t'.

Definition l_opt (p : char -> bool) (L : lang) : lang :=
  fun t => l_one p L t \/ L t.

Definition l_star (p : char -> bool) (L : lang) : lang :=
  fun t => exists cs t', t = cs ++ t' /\ forallb p cs = true /\ L t'.

(** A size token: digits, an optional dot, digits, white space, an
    optional K, M, G, T or P, an optional i, and B. *)
Definition size_token (isdecimal : char -> bool) : lang :=
  l_one isdecimal
    (l_star isdecimal
       (l_opt is_dot
          (l_star isdecimal
             (l_star isspace
                (l_opt is_unit
                   (l_opt is_i
                      (l_one is_B l_end))))))).

(** A continuation against a language: what it accepts is a prefix in
    the language, and it accepts whenever some prefix is. *)
Definition sound (k : cont) (L : lang) : Prop :=
  forall s n, k s = Some n -> n <= List.length s /\ L (firstn n s).

Definition complete (k : cont) (L : lang) : Prop :=
  forall t r, L t -> k (t ++ r) <> None.

(** *** Shapes of tokens *)

Definition not_B (c : char) : bool := negb (is_B c).
Definition not_decimal (isdecimal : char -> bool) (c : char) : bool :=
  negb (isdecimal c).
Definition decimal_or_dot (isdecimal : char -> bool) (c : char) : bool :=
  isdecimal c || is_dot c.

Definition no_B (a : str) : bool := forallb not_B a.

(** [t] has one B, its last character. *)
Definition ends_at_B (t : str) : Prop :=
  exists body, t = body ++ [66%N] /\ no_B body = true.

Definition no_decimal (isdecimal : char -> bool) (t : str) : Prop :=
  forallb (not_decimal isdecimal) t = true.

(** In [t] a digit that is not the first character follows a digit or
    a dot. *)
Definition digits_chained (isdecimal : char -> bool) (t : str) : Prop :=
  forall x c d y,
    t = x ++ c :: d :: y -> isdecimal d = true ->
    isdecimal c || is_dot c = true.

(** [t] ends in B. *)
Definition ends_in_B : lang := fun t => exists body, t = body ++ [66%N].

(** A property of strings kept when a character [ok] accepts is put in
    front. *)
Definition closed (ok : char -> bool) (Q : lang) : Prop :=
  forall c t, ok c = true -> Q t -> Q (c :: t).

(** What the analysis of the pattern asks of the table of digits: a
    digit is none of the other characters the pattern names. *)
Definition apart (isdecimal : char -> bool) : Prop :=
  forall c, isdecimal c = true ->
    isspace c = false /\ is_dot c = false /\ is_unit c = false
    /\ is_i c = false /\ is_B c = false.

End Re.

(** ** The window, the operating system and the handler *)

Module Snapper.

(** What [subprocess.run(..., capture_output=True, text=True)] collects
    from a finished process. *)
Record CompletedProcess := {
  returncode : Z;
  stdout : str;
  stderr : str
}.

Inductive icon := Warning | Information | Critical.

(** A [QMessageBox] shown to the user. *)
Record message_box := {
  box_icon : icon;
  box_title : str;
  box_text : str
}.

Inductive level := DEBUG | ERROR.

(** The exceptions the handler raises or lets [subprocess.run] raise:
    [subprocess.CalledProcessError] carries the error stream of the
    process, [Exception] its message. *)
Inductive exn :=
| CalledProcessError (e_stderr : str)
| Exception (e_msg : str).

Section Handler.

Variable isdecimal : char -> bool.

(** The operating system: running a command line yields what the
    process left behind and a new state of the system. *)
Variable World : Type.
Variable execute : World -> list str -> CompletedProcess * World.

(** One external process, as the handler spawned it: its command
    line, whether the button was enabled at that moment, and what
    came back. *)
Record spawned := {
  argv : list str;
  button_then : bool;
  completed : CompletedProcess
}.

(** The window: [comment_input] holds the text of the line edit,
    [snap_button] whether the button is enabled, [status_bar] the
    message of the status bar; then, oldest first, the message boxes
    shown, the log records written and the processes spawned. *)
Record window := {
  comment_input : str;
  snap_button : bool;
  status_bar : str;
  boxes : list message_box;
  log : list (level * str);
  spawns : list spawned;
  os : World
}.

(** *** Statements: state and exceptions *)

Definition M (A : Type) := window -> (exn + A) * window.

Definition ret {A} (a : A) : M A := fun w => (inr a, w).

Definition bind {A B} (m : M A) (f : A -> M B) : M B :=
  fun w =>
    match m w with
    | (inr a, w') => f a w'
    | (inl e, w') => (inl e, w')
    end.

Definition raise {A} (e : exn) : M A := fun w => (inl e, w).

Notation "x <- m ;; k" := (bind m (fun x => k))
  (at level 61, m at next level, right associativity).
Notation "m ;; k" := (bind m (fun _ => k))
  (at level 61, right associativity).

Definition showMessage (m : str) : M unit :=
  fun w => (inr tt,
    {| comment_input := comment_input w; snap_button := snap_button w;
       status_bar := m; boxes := boxes w; log := log w;
       spawns := spawns w; os := os w |}).

Definition setEnabled (b : bool) : M unit :=
  fun w => (inr tt,
    {| comment_input := comment_input w; snap_button := b;
       status_bar := status_bar w; boxes := boxes w; log := log w;
       spawns := spawns w; os := os w |}).

Definition message (i : icon) (title text : str) : M unit :=
  fun w => (inr tt,
    {| comment_input := comment_input w; snap_button := snap_button w;
       status_bar := status_bar w;
       boxes := boxes w ++ [{| box_icon := i; box_title := title;
                               box_text := text |}];
       log := log w; spawns := spawns w; os := os w |}).

Definition logger (l : level) (m : str) : M unit :=
  fun w => (inr tt,
    {| comment_input := comment_input w; snap_button := snap_button w;
       status_bar := status_bar w; boxes := boxes w;
       log := log w ++ [(l, m)]; spawns := spawns w; os := os w |}).

Definition clear_input : M unit :=
  fun w => (inr tt,
    {| comment_input := []; snap_button := snap_button w;
       status_bar := status_bar w; boxes := boxes w; log := log w;
       spawns := spawns w; os := os w |}).

(** [subprocess.run(args, check=True, capture_output=True, text=True)] *)
Definition subprocess_run (args : list str) : M CompletedProcess :=
  fun w =>
    let (r, o) := execute (os w) args in
    let w' :=
      {| comment_input := comment_input w; snap_button := snap_button w;
         status_bar := status_bar w; boxes := boxes w; log := log w;
         spawns := spawns w ++ [{| argv := args;
                                   button_then := snap_button w;
                                   completed := r |}];
         os := o |} in
    if (returncode r =? 0)%Z then (inr r, w')
    else (inl (CalledProcessError (stderr r)), w').

(** *** The two parsing loops *)

(** Lines 112-119: the loop over the lines of the configuration
    table; [subvolume] is the variable of that name. *)
Fixpoint subvolume_loop (lines : list str) (subvolume : option str)
  : option str :=
  match lines with
  | [] => subvolume
  | line :: rest =>
      if contains (u "SUBVOLUME") line then
        let parts := split bar line in
        if 2 <=? List.length parts then Some (strip (nth 1 parts []))
        else subvolume_loop rest subvolume
      else subvolume_loop rest subvolume
  end.

Definition find_subvolume (config_stdout : str) : option str :=
  subvolume_loop (split nl config_stdout) None.

(** Lines 138-144: the loop over the lines of the listing. *)
Fixpoint size_loop (snapshot_num : str) (lines : list str) (size : str)
  : str :=
  match lines with
  | [] => size
  | line :: rest =>
      if startswith snapshot_num (strip line) then
        match Re.search isdecimal line with
        | Some m => m
        | None => size
        end
      else size_loop snapshot_num rest size
  end.

Definition find_size (snapshot_num details_stdout : str) : str :=
  size_loop snapshot_num (split nl details_stdout) (u "Unknown").

(** The listing has no size for [snapshot_num]: the first line that,
    trimmed, begins with it, if there is one, has no match of the
    pattern. *)
Definition no_size_token (snapshot_num details_stdout : str) : Prop :=
  forall pre row post,
    split nl details_stdout = pre ++ row :: post ->
    (forall l, In l pre -> startswith snapshot_num (strip l) = false) ->
    startswith snapshot_num (strip row) = true ->
    Re.search isdecimal row = None.

(** A value inside an f-string; [None] prints as its name. *)
Definition fmt (o : option str) : str :=
  match o with
  | Some s => s
  | None => u "None"
  end.

(** [not subvolume] *)
Definition falsy_opt (o : option str) : bool :=
  match o with
  | Some s => falsy s
  | None => true
  end.

(** *** The command lines *)

Definition create_argv (comment : str) : list str :=
  [u "sudo"; u "snapper"; u "create"; u "--description"; comment;
   u "--type"; u "single"; u "--print-number"].

Definition config_argv : list str :=
  [u "sudo"; u "snapper"; u "get-config"].

Definition list_argv : list str :=
  [u "sudo"; u "snapper"; u "list"; u "-t"; u "single"].

(** *** The texts *)

Definition snapshot_path (subvolume : option str) (snapshot_num : str)
  : str :=
  fmt subvolume ++ u "/.snapshots/" ++ snapshot_num ++ u "/snapshot".

Definition success_msg (snapshot_num size path : str) : str :=
  u "Snapshot #" ++ snapshot_num ++ u " created successfully!"
    ++ [nl; nl]
    ++ u "Size: " ++ size ++ [nl]
    ++ u "Location: " ++ path.

Definition process_error_msg (e_stderr : str) : str :=
  u "Failed to create snapshot. Error: " ++ e_stderr.

Definition unexpected_error_msg (e_msg : str) : str :=
  u "An unexpected error occurred: " ++ e_msg.

Definition no_number : str := u "Failed to get snapshot number".
Definition no_subvolume : str := u "Failed to get subvolume path".

(** *** [take_snapshot] *)

(** Lines 85-162, the body of the [try]. *)
Definition try_body (comment : str) : M unit :=
  showMessage (u "Creating snapshot...") ;;
  setEnabled false ;;
  logger DEBUG (u "Creating snapshot...") ;;
  create_result <- subprocess_run (create_argv comment) ;;
  let snapshot_num := strip (stdout create_result) in
  logger DEBUG (u "Got snapshot number: " ++ snapshot_num) ;;
  (if falsy snapshot_num then raise (Exception no_number) else ret tt) ;;
  logger DEBUG (u "Getting subvolume path...") ;;
  config_result <- subprocess_run config_argv ;;
  let subvolume := find_subvolume (stdout config_result) in
  logger DEBUG (u "Found subvolume: " ++ fmt subvolume) ;;
  (if falsy_opt subvolume then raise (Exception no_subvolume)
   else ret tt) ;;
  let path := snapshot_path subvolume snapshot_num in
  logger DEBUG (u "Snapshot path: " ++ path) ;;
  logger DEBUG (u "Getting snapshot details...") ;;
  details_result <- subprocess_run list_argv ;;
  let size := find_size snapshot_num (stdout details_result) in
  logger DEBUG (u "Got size: " ++ size) ;;
  let msg := success_msg snapshot_num size path in
  logger DEBUG (u "Success message: " ++ msg) ;;
  showMessage (u "Snapshot created successfully") ;;
  message Information (u "Success") msg ;;
  clear_input.

(** Lines 164-181, the two [except] clauses. *)
Definition handle (e : exn) : M unit :=
  match e with
  | CalledProcessError e_stderr =>
      let error_msg := process_error_msg e_stderr in
      logger ERROR error_msg ;;
      showMessage (u "Error creating snapshot") ;;
      message Critical (u "Error") error_msg
  | Exception e_msg =>
      let error_msg := unexpected_error_msg e_msg in
      logger ERROR error_msg ;;
      showMessage (u "Error creating snapshot") ;;
      message Critical (u "Error") error_msg
  end.

(** [try: body except: handle finally: final] *)
Definition try_except_finally (body : M unit) (final : M unit)
  : M unit :=
  fun w =>
    match body w with
    | (inr tt, w1) => final w1
    | (inl e, w1) =>
        match handle e w1 with
        | (inr tt, w2) => final w2
        | (inl e', w2) =>
            match final w2 with
            | (inr tt, w3) => (inl e', w3)
            | (inl e'', w3) => (inl e'', w3)
            end
        end
    end.

Definition warning_text : str :=
  u "Please enter a description for the snapshot.".

(** Lines 73-183. *)
Definition take_snapshot_m : M unit :=
  fun w =>
    let comment := strip (comment_input w) in
    if falsy comment then
      message Warning (u "Warning") warning_text w
    else
      try_except_finally (try_body comment) (setEnabled true) w.

(** The window after a click. *)
Definition take_snapshot (w : window) : window :=
  snd (take_snapshot_m w).

(** *** The runs of the handler

    The boxes the handler shows, and the seven ways a click can go: what
    was spawned, the box shown, the text left in the line edit and the
    state of the button at the end. *)

Definition warning_box : message_box :=
  {| box_icon := Warning; box_title := u "Warning";
     box_text := warning_text |}.

Definition error_box (text : str) : message_box :=
  {| box_icon := Critical; box_title := u "Error"; box_text := text |}.

Definition success_box (text : str) : message_box :=
  {| box_icon := Information; box_title := u "Success"; box_text := text |}.

(** A process spawned while the button is disabled. *)
Definition spawn (args : list str) (r : CompletedProcess) : spawned :=
  {| argv := args; button_then := false; completed := r |}.

Inductive outcome (w : window)
  : list spawned -> message_box -> str -> bool -> Prop :=
| Rejected :
    strip (comment_input w) = [] ->
    outcome w [] warning_box (comment_input w) (snap_button w)
| CreateFailed r1 :
    strip (comment_input w) <> [] ->
    returncode r1 <> 0%Z ->
    outcome w [spawn (create_argv (strip (comment_input w))) r1]
      (error_box (process_error_msg (stderr r1)))
      (comment_input w) true
| NoNumber r1 :
    strip (comment_input w) <> [] ->
    returncode r1 = 0%Z ->
    strip (stdout r1) = [] ->
    outcome w [spawn (create_argv (strip (comment_input w))) r1]
      (error_box (unexpected_error_msg no_number))
      (comment_input w) true
| ConfigFailed r1 r2 :
    strip (comment_input w) <> [] ->
    returncode r1 = 0%Z ->
    strip (stdout r1) <> [] ->
    returncode r2 <> 0%Z ->
    outcome w [spawn (create_argv (strip (comment_input w))) r1;
               spawn config_argv r2]
      (error_box (process_error_msg (stderr r2)))
      (comment_input w) true
| NoSubvolume r1 r2 :
    strip (comment_input w) <> [] ->
    returncode r1 = 0%Z ->
    strip (stdout r1) <> [] ->
    returncode r2 = 0%Z ->
    falsy_opt (find_subvolume (stdout r2)) = true ->
    outcome w [spawn (create_argv (strip (comment_input w))) r1;
               spawn config_argv r2]
      (error_box (unexpected_error_msg no_subvolume))
      (comment_input w) true
| ListFailed r1 r2 r3 :
    strip (comment_input w) <> [] ->
    returncode r1 = 0%Z ->
    strip (stdout r1) <> [] ->
    returncode r2 = 0%Z ->
    falsy_opt (find_subvolume (stdout r2)) = false ->
    returncode r3 <> 0%Z ->
    outcome w [spawn (create_argv (strip (comment_input w))) r1;
               spawn config_argv r2; spawn list_argv r3]
      (error_box (process_error_msg (stderr r3)))
      (comment_input w) true
| Succeeded r1 r2 r3 subvolume :
    strip (comment_input w) <> [] ->
    returncode r1 = 0%Z ->
    strip (stdout r1) <> [] ->
    returncode r2 = 0%Z ->
    find_subvolume (stdout r2) = Some subvolume ->
    subvolume <> [] ->
    returncode r3 = 0%Z ->
    outcome w [spawn (create_argv (strip (comment_input w))) r1;
               spawn config_argv r2; spawn list_argv r3]
      (success_box
         (success_msg (strip (stdout r1))
            (find_size (strip (stdout r1)) (stdout r3))
            (subvolume ++ u "/.snapshots/" ++ strip (stdout r1)
               ++ u "/snapshot")))
      [] true.

(** A log record of level ERROR. *)
Definition is_error (entry : level * str) : bool :=
  match fst entry with
  | ERROR => true
  | DEBUG => false
  end.

(** The test of line 140: the line, trimmed, begins with the
    identifier. *)
Definition begins_with (id line : str) : bool :=
  startswith id (strip line).

(** The process was spawned while the button was disabled. *)
Definition spawned_disabled (p : spawned) : Prop := button_then p = false.

(** The user types [text] into the line edit. *)
Definition set_text (text : str) (w : window) : window :=
  {| comment_input := text; snap_button := snap_button w;
     status_bar := status_bar w; boxes := boxes w; log := log w;
     spawns := spawns w; os := os w |}.

(** A session: the user types a text and clicks, again and again. *)
Fixpoint session (texts : list str) (w : window) : window :=
  match texts with
  | [] => w
  | text :: rest => session rest (take_snapshot (set_text text w))
  end.

End Handler.

(** A scripted operating system: the answers of the processes to come,
    in order; a process with no answer left exits with status 127. *)
Definition script := list CompletedProcess.

Definition play (s : script) (_ : list str) : CompletedProcess * script :=
  match s with
  | r :: s' => (r, s')
  | [] => ({| returncode := 127; stdout := []; stderr := [] |}, [])
  end.

Definition ok (out : str) : CompletedProcess :=
  {| returncode := 0; stdout := out; stderr := [] |}.

Definition failed (code : Z) (err : str) : CompletedProcess :=
  {| returncode := code; stdout := []; stderr := err |}.

(** The window as [__init__] leaves it, with [text] typed in. *)
Definition fresh {World} (text : str) (o : World) : window World :=
  {| comment_input := text; snap_button := true; status_bar := u "Ready";
     boxes := []; log := []; spawns := []; os := o |}.

Definition click (text : str) (s : script) : window script :=
  take_snapshot Re.ascii_digit play (fresh text s).

End Snapper.
Import Snapper.

(** ** Fixtures: tables as the tool prints them *)

Definition config_table : str :=
  u "Key       " ++ [bar] ++ u " Value" ++ [nl]
  ++ u "SUBVOLUME " ++ [bar] ++ u " /home" ++ [nl].

Definition listing : str :=
  u " # | Type   | Used Space | Description" ++ [nl]
  ++ u "11 | single | 16.00 KiB  | before" ++ [nl]
  ++ u "12 | single | 364.00 KiB | x" ++ [nl].

(** A listing whose row for snapshot 12 has an empty size column. *)
Definition listing_without_size : str :=
  u " # | Type   | Used Space | Description" ++ [nl]
  ++ u "12 | single |            | x" ++ [nl].

(** Two rows whose keys share a prefix, the longer key first. *)
Definition collision_listing : str :=
  u "10 | single | 5.00 KiB | a" ++ [nl]
  ++ u "1  | single | 7.00 KiB | b".

(** A listing whose dates end in a time zone that starts with B. *)
Definition summer_listing : str :=
  u " # | Type   | Pre # | Date                         | User | Used Space | Description"
  ++ [nl]
  ++ u "12 | single |       | Wed 10 Jun 2020 19:36:23 BST | root | 364.00 KiB | x"
  ++ [nl].

Definition pipe : char := 124%N.       (* '|' *)

(** A column of a listing row, as the specification reads the table:
    the text between two pipes, trimmed.  The key of a row is its first
    column. *)
Definition column (n : nat) (row : str) : str :=
  strip (nth n (split pipe row) []).

Definition row_key (row : str) : str := column 0 row.

(** A line of the configuration table the loop stops at. *)
Definition subvolume_line (line : str) : bool :=
  contains (u "SUBVOLUME") line && (2 <=? List.length (split bar line)).

(** ** Concrete runs *)

Example strip_ex : strip (u "  12 ") = u "12".
Proof. reflexivity. Qed.

Example split_ex :
  split nl (u "a" ++ [nl] ++ u "b" ++ [nl]) = [u "a"; u "b"; []].
Proof. reflexivity. Qed.

Example search_ex :
  Re.search Re.ascii_digit (u " 12 | single | 10:32:41 AM | 364.00 KiB | x")
  = Some (u "364.00 KiB").
Proof. vm_compute. reflexivity. Qed.

Example click_ok :
  let w := click (u " x ") [ok (u "12" ++ [nl]); ok config_table; ok listing] in
  map (@box_text) (boxes w) =
    [u "Snapshot #12 created successfully!" ++ [nl; nl] ++ u "Size: 364.00 KiB"
       ++ [nl] ++ u "Location: /home/.snapshots/12/snapshot"]
  /\ comment_input w = [] /\ snap_button w = true
  /\ map (@argv) (spawns w) = [create_argv (u "x"); config_argv; list_argv].
Proof. vm_compute. auto. Qed.

Unset Implicit Arguments.

(** ** Strings *)

Lemma lstrip_blank (s : str) : forallb isspace s = true -> lstrip s = [].
Proof.
  induction s as [|c s IH]; simpl; [reflexivity|].
  intros H. apply andb_true_iff in H as [Hc Hs].
  rewrite Hc. auto.
Qed.

Lemma strip_blank (s : str) : forallb isspace s = true -> strip s = [].
Proof.
  intros H. unfold strip, rstrip. rewrite (lstrip_blank _ H). reflexivity.
Qed.

(** The first element of a list that [f] accepts, if there is one. *)
Lemma first_such {A} (f : A -> bool) (l : list A) :
  (forall x, In x l -> f x = false)
  \/ exists pre x post,
       l = pre ++ x :: post
       /\ (forall y, In y pre -> f y = false) /\ f x = true.
Proof.
  induction l as [|a l IH].
  - left. intros x [].
  - destruct (f a) eqn:Ha.
    + right. exists [], a, l. repeat split; auto. intros y [].
    + destruct IH as [IH|(pre & x & post & -> & Hpre & Hx)].
      * left. intros x [<-|Hx]; auto.
      * right. exists (a :: pre), x, post. repeat split; auto.
        intros y [<-|Hy]; auto.
Qed.

(** ** The configuration table *)

Section ConfigTable.

Lemma subvolume_loop_skip (pre rest : list str) (acc : option str) :
  (forall x, In x pre -> subvolume_line x = false) ->
  subvolume_loop (pre ++ rest) acc = subvolume_loop rest acc.
Proof.
  induction pre as [|x pre IH]; intros Hpre; [reflexivity|].
  cbn [app subvolume_loop]. assert (Hx := Hpre x (or_introl eq_refl)).
  unfold subvolume_line in Hx.
  destruct (contains (u "SUBVOLUME") x); cbn [andb] in Hx.
  - cbv zeta. rewrite Hx. apply IH. intros y Hy. apply Hpre. now right.
  - apply IH. intros y Hy. apply Hpre. now right.
Qed.

Lemma subvolume_loop_stop (line : str) (rest : list str) (acc : option str) :
  subvolume_line line = true ->
  subvolume_loop (line :: rest) acc
  = Some (strip (nth 1 (split bar line) [])).
Proof.
  unfold subvolume_line. intros H.
  apply andb_true_iff in H as [H1 H2].
  cbn [subvolume_loop]. rewrite H1. cbv zeta. rewrite H2. reflexivity.
Qed.

Lemma first_subvolume_line (lines : list str) :
  (exists l, In l lines /\ subvolume_line l = true) ->
  exists pre l post,
    lines = pre ++ l :: post
    /\ (forall x, In x pre -> subvolume_line x = false)
    /\ subvolume_line l = true.
Proof.
  intros (l & Hin & Hl).
  destruct (first_such subvolume_line lines) as [Hnone|H]; [|exact H].
  rewrite (Hnone l Hin) in Hl. discriminate.
Qed.

(** C1. A configuration table that has a line containing SUBVOLUME
    which the bar splits into at least two columns yields, as the
    subvolume, the second column of the first such line with the
    white space around it removed. *)
Theorem wellformed_config_subvolume (config_stdout : str) :
  (exists l, In l (split nl config_stdout) /\ subvolume_line l = true) ->
  exists pre l post,
    split nl config_stdout = pre ++ l :: post
    /\ (forall x, In x pre -> subvolume_line x = false)
    /\ subvolume_line l = true
    /\ find_subvolume config_stdout
       = Some (strip (nth 1 (split bar l) [])).
Proof.
  intros H. destruct (first_subvolume_line _ H) as (pre & l & post & E & Hpre & Hl).
  exists pre, l, post. repeat split; auto.
  unfold find_subvolume. rewrite E, subvolume_loop_skip by assumption.
  now apply subvolume_loop_stop.
Qed.

Lemma wellformed_config_subvolume_witness :
  exists pre l post,
    split nl config_table = pre ++ l :: post
    /\ (forall x, In x pre -> subvolume_line x = false)
    /\ subvolume_line l = true
    /\ find_subvolume config_table
       = Some (strip (nth 1 (split bar l) [])).
Proof.
  apply (wellformed_config_subvolume config_table).
  exists (u "SUBVOLUME " ++ [bar] ++ u " /home").
  split; [vm_compute; auto | vm_compute; reflexivity].
Defined.

End ConfigTable.

(** ** The size pattern and its language *)

Section Pattern.

Import Re.

Variable isdecimal : char -> bool.

Lemma accept_sound : sound accept l_end.
Proof.
  intros s n H. injection H as <-. split; [apply Nat.le_0_l | reflexivity].
Qed.

Lemma accept_complete : complete accept l_end.
Proof. intros t r _. discriminate. Qed.

Lemma one_sound p k L : sound k L -> sound (one p k) (l_one p L).
Proof.
  intros Hk [|c s] n; cbn [one]; [discriminate|].
  destruct (p c) eqn:Hp; [|discriminate].
  destruct (k s) as [m|] eqn:Hm; [|discriminate].
  intros H. injection H as <-.
  destruct (Hk _ _ Hm) as [Hle HL].
  split; [simpl; lia|].
  exists c, (firstn m s). auto.
Qed.

Lemma one_complete p k L : complete k L -> complete (one p k) (l_one p L).
Proof.
  intros Hk t r (c & t' & -> & Hp & HL). cbn [one app].
  rewrite Hp. specialize (Hk t' r HL).
  destruct (k (t' ++ r)); [discriminate | congruence].
Qed.

Lemma opt_sound p k L : sound k L -> sound (opt p k) (l_opt p L).
Proof.
  intros Hk s n. unfold opt.
  destruct (one p k s) as [m|] eqn:Hm.
  - intros H. injection H as <-.
    destruct (one_sound p k L Hk _ _ Hm). split; [assumption | now left].
  - intros H. destruct (Hk _ _ H). split; [assumption | now right].
Qed.

Lemma opt_complete p k L : complete k L -> complete (opt p k) (l_opt p L).
Proof.
  intros Hk t r [H|H]; unfold opt.
  - pose proof (one_complete p k L Hk t r H) as Hone.
    destruct (one p k (t ++ r)); [discriminate | congruence].
  - destruct (one p k (t ++ r)); [discriminate | now apply Hk].
Qed.

Lemma star_sound p k L : sound k L -> sound (star p k) (l_star p L).
Proof.
  intros Hk s. induction s as [|c s IH]; intros n; cbn [star].
  - intros H. destruct (Hk _ _ H) as [Hle HL].
    split; [assumption|]. exists [], (firstn n []). auto.
  - assert (Hfall : k (c :: s) = Some n ->
                    n <= List.length (c :: s) /\ l_star p L (firstn n (c :: s))).
    { intros H. destruct (Hk _ _ H) as [Hle HL].
      split; [assumption|]. exists [], (firstn n (c :: s)). auto. }
    destruct (p c) eqn:Hp; [|exact Hfall].
    destruct (star p k s) as [m|] eqn:Hm; [|exact Hfall].
    intros H. injection H as <-.
    destruct (IH _ eq_refl) as [Hle (cs & t' & E & Hcs & HL)].
    split; [simpl; lia|].
    exists (c :: cs), t'. cbn [firstn app forallb].
    rewrite E, Hp, Hcs. auto.
Qed.

Lemma star_fallback p k s : k s <> None -> star p k s <> None.
Proof.
  destruct s as [|c s]; cbn [star]; [auto|].
  intros H. destruct (p c); [|assumption].
  destruct (star p k s); [discriminate | assumption].
Qed.

Lemma star_complete p k L : complete k L -> complete (star p k) (l_star p L).
Proof.
  intros Hk t r (cs & t' & -> & Hcs & HL).
  induction cs as [|c cs IH].
  - apply star_fallback. now apply Hk.
  - cbn [forallb] in Hcs. apply andb_true_iff in Hcs as [Hc Hcs].
    cbn [app star]. rewrite Hc.
    specialize (IH Hcs). cbn [app] in IH.
    destruct (star p k ((cs ++ t') ++ r)); [discriminate | congruence].
Qed.

Lemma size_pattern_sound : sound (size_pattern isdecimal) (size_token isdecimal).
Proof.
  unfold size_pattern, size_token, plus.
  repeat first [apply one_sound | apply opt_sound | apply star_sound].
  apply accept_sound.
Qed.

Lemma size_pattern_complete :
  complete (size_pattern isdecimal) (size_token isdecimal).
Proof.
  unfold size_pattern, size_token, plus.
  repeat first [apply one_complete | apply opt_complete | apply star_complete].
  apply accept_complete.
Qed.

End Pattern.

(** ** One match per starting point *)

Section Shape.

Import Re.

Variable isdecimal : char -> bool.
Hypothesis decimal_apart : apart isdecimal.

Lemma lift_one ok Q p (L : lang) :
  closed ok Q -> (forall c, p c = true -> ok c = true) ->
  (forall t, L t -> Q t) -> forall t, l_one p L t -> Q t.
Proof.
  intros HQ Hp HL t (c & t' & -> & Hc & Ht'). apply HQ; auto.
Qed.

Lemma lift_opt ok Q p (L : lang) :
  closed ok Q -> (forall c, p c = true -> ok c = true) ->
  (forall t, L t -> Q t) -> forall t, l_opt p L t -> Q t.
Proof.
  intros HQ Hp HL t [H|H]; [|auto]. exact (lift_one ok Q p L HQ Hp HL t H).
Qed.

Lemma lift_star ok Q p (L : lang) :
  closed ok Q -> (forall c, p c = true -> ok c = true) ->
  (forall t, L t -> Q t) -> forall t, l_star p L t -> Q t.
Proof.
  intros HQ Hp HL t (cs & t' & -> & Hcs & Ht').
  induction cs as [|c cs IH]; cbn [app]; [auto|].
  cbn [forallb] in Hcs. apply andb_true_iff in Hcs as [Hc Hcs].
  apply HQ; auto.
Qed.

(** The three properties and the characters that keep them. *)

Local Abbreviation not_decimal := (not_decimal isdecimal).
Local Abbreviation decimal_or_dot := (decimal_or_dot isdecimal).

Lemma ends_at_B_closed : closed not_B ends_at_B.
Proof.
  intros c t Hc (body & -> & Hb). exists (c :: body). split; [reflexivity|].
  unfold no_B in *. cbn [forallb]. now rewrite Hc.
Qed.

Lemma no_decimal_closed : closed not_decimal (no_decimal isdecimal).
Proof.
  intros c t Hc Ht. unfold no_decimal in *. cbn [forallb].
  now rewrite Hc.
Qed.

Lemma digits_chained_closed : closed decimal_or_dot (digits_chained isdecimal).
Proof.
  intros c t Hc Ht x c0 d y E Hd. destruct x as [|c1 x]; cbn [app] in E.
  - injection E as <- ->. exact Hc.
  - injection E as <- ->. exact (Ht x c0 d y eq_refl Hd).
Qed.

Lemma no_decimal_chained t : no_decimal isdecimal t -> digits_chained isdecimal t.
Proof.
  intros Ht x c d y -> Hd. unfold no_decimal in Ht.
  rewrite forallb_app in Ht. apply andb_true_iff in Ht as [_ Ht].
  cbn [forallb] in Ht. unfold Re.not_decimal in Ht at 2.
  rewrite Hd in Ht. cbn [negb andb] in Ht.
  rewrite andb_false_r in Ht. discriminate.
Qed.

Lemma space_not_B c : isspace c = true -> not_B c = true.
Proof.
  unfold not_B, is_B. destruct (N.eqb_spec c 66) as [->|]; [|reflexivity].
  vm_compute. discriminate.
Qed.

Lemma dot_not_B c : is_dot c = true -> not_B c = true.
Proof.
  unfold not_B, is_B, is_dot. intros H. apply N.eqb_eq in H as ->. reflexivity.
Qed.

Lemma unit_not_B c : is_unit c = true -> not_B c = true.
Proof.
  unfold not_B, is_B, is_unit. destruct (N.eqb_spec c 66) as [->|]; [|reflexivity].
  vm_compute. discriminate.
Qed.

Lemma i_not_B c : is_i c = true -> not_B c = true.
Proof.
  unfold not_B, is_B, is_i. intros H. apply N.eqb_eq in H as ->. reflexivity.
Qed.

Lemma decimal_not_B c : isdecimal c = true -> not_B c = true.
Proof.
  intros H. destruct (decimal_apart c H) as (_ & _ & _ & _ & HB).
  unfold not_B. now rewrite HB.
Qed.

Lemma not_decimal_of (p : char -> bool) c :
  (forall c, isdecimal c = true -> p c = false) ->
  p c = true -> not_decimal c = true.
Proof.
  intros Hp Hc. unfold Re.not_decimal.
  destruct (isdecimal c) eqn:E; [|reflexivity].
  rewrite (Hp c E) in Hc. discriminate.
Qed.

Lemma final_B t : l_one is_B l_end t -> t = [66%N].
Proof.
  intros (c & t' & -> & Hc & ->). unfold is_B in Hc.
  apply N.eqb_eq in Hc as ->. reflexivity.
Qed.

Lemma size_token_ends_at_B t : size_token isdecimal t -> ends_at_B t.
Proof.
  unfold size_token.
  apply (lift_one not_B _ _ _ ends_at_B_closed decimal_not_B).
  apply (lift_star not_B _ _ _ ends_at_B_closed decimal_not_B).
  apply (lift_opt not_B _ _ _ ends_at_B_closed dot_not_B).
  apply (lift_star not_B _ _ _ ends_at_B_closed decimal_not_B).
  apply (lift_star not_B _ _ _ ends_at_B_closed space_not_B).
  apply (lift_opt not_B _ _ _ ends_at_B_closed unit_not_B).
  apply (lift_opt not_B _ _ _ ends_at_B_closed i_not_B).
  intros t' H. rewrite (final_B _ H). exists []. auto.
Qed.

Lemma size_token_chained t : size_token isdecimal t -> digits_chained isdecimal t.
Proof.
  assert (Hdd : forall c, isdecimal c = true -> decimal_or_dot c = true).
  { intros c H. unfold Re.decimal_or_dot. now rewrite H. }
  assert (Hdot : forall c, is_dot c = true -> decimal_or_dot c = true).
  { intros c H. unfold Re.decimal_or_dot. rewrite H. apply orb_true_r. }
  unfold size_token.
  apply (lift_one decimal_or_dot _ _ _ digits_chained_closed Hdd).
  apply (lift_star decimal_or_dot _ _ _ digits_chained_closed Hdd).
  apply (lift_opt decimal_or_dot _ _ _ digits_chained_closed Hdot).
  apply (lift_star decimal_or_dot _ _ _ digits_chained_closed Hdd).
  intros t' H. apply no_decimal_chained. revert t' H.
  apply (lift_star not_decimal _ _ _ no_decimal_closed).
  { intros c. apply not_decimal_of. intros c' H'. apply (decimal_apart c' H'). }
  apply (lift_opt not_decimal _ _ _ no_decimal_closed).
  { intros c. apply not_decimal_of. intros c' H'. apply (decimal_apart c' H'). }
  apply (lift_opt not_decimal _ _ _ no_decimal_closed).
  { intros c. apply not_decimal_of. intros c' H'. apply (decimal_apart c' H'). }
  intros t' H. rewrite (final_B _ H). unfold no_decimal, Re.not_decimal.
  cbn [forallb]. destruct (isdecimal 66%N) eqn:E; [|reflexivity].
  destruct (decimal_apart _ E) as (_ & _ & _ & _ & HB). discriminate.
Qed.

End Shape.

(** ** The leftmost match *)

Section Search.

Import Re.

Variable isdecimal : char -> bool.
Hypothesis decimal_apart : apart isdecimal.

(** Two strings that stop at their first B and start the same text
    are the same string. *)
Lemma first_B_unique body1 body2 r1 r2 :
  no_B body1 = true -> no_B body2 = true ->
  body1 ++ 66%N :: r1 = body2 ++ 66%N :: r2 ->
  body1 = body2.
Proof.
  revert body2. induction body1 as [|c b1 IH]; intros [|c2 b2] H1 H2 E;
    cbn [app] in E.
  - reflexivity.
  - injection E as <- _. cbn in H2. discriminate.
  - injection E as -> _. cbn in H1. discriminate.
  - injection E as <- E. unfold no_B in *. cbn [forallb] in H1, H2.
    apply andb_true_iff in H1 as [_ H1]. apply andb_true_iff in H2 as [_ H2].
    f_equal. eauto.
Qed.

Lemma ends_at_B_unique t1 t2 r1 r2 :
  ends_at_B t1 -> ends_at_B t2 -> t1 ++ r1 = t2 ++ r2 -> t1 = t2.
Proof.
  intros (b1 & -> & H1) (b2 & -> & H2) E.
  rewrite <- !app_assoc in E. cbn [app] in E.
  now rewrite (first_B_unique _ _ _ _ H1 H2 E).
Qed.

(** At the head of a token the pattern matches the token, whatever
    follows. *)
Lemma size_pattern_exact tok r :
  size_token isdecimal tok ->
  size_pattern isdecimal (tok ++ r) = Some (List.length tok).
Proof.
  intros Htok.
  destruct (size_pattern isdecimal (tok ++ r)) as [n|] eqn:E.
  - destruct (size_pattern_sound isdecimal _ _ E) as [Hle Hn].
    assert (Heq : firstn n (tok ++ r) = tok).
    { apply (ends_at_B_unique _ _ (skipn n (tok ++ r)) r).
      - now apply (size_token_ends_at_B isdecimal decimal_apart).
      - now apply (size_token_ends_at_B isdecimal decimal_apart).
      - apply firstn_skipn. }
    f_equal. rewrite <- Heq. rewrite length_firstn. lia.
  - exfalso. exact (size_pattern_complete isdecimal tok r Htok E).
Qed.

(** No match starts before a token that nothing with a B precedes and
    that no digit or dot touches on the left. *)
Lemma no_match_before a0 c tok r :
  no_B (a0 ++ [c]) = true ->
  decimal_or_dot isdecimal c = false ->
  size_token isdecimal tok ->
  size_pattern isdecimal ((a0 ++ [c]) ++ tok ++ r) = None.
Proof.
  intros Ha Hc Htok.
  destruct (size_pattern isdecimal ((a0 ++ [c]) ++ tok ++ r)) as [n|] eqn:E;
    [exfalso|reflexivity].
  destruct (size_pattern_sound isdecimal _ _ E) as [Hle Hn].
  destruct (size_token_ends_at_B isdecimal decimal_apart _ Htok)
    as (body & Ebody & Hbody).
  assert (Heq : firstn n ((a0 ++ [c]) ++ tok ++ r) = (a0 ++ [c]) ++ tok).
  { apply (ends_at_B_unique _ _ (skipn n ((a0 ++ [c]) ++ tok ++ r)) r).
    - now apply (size_token_ends_at_B isdecimal decimal_apart).
    - exists ((a0 ++ [c]) ++ body). split.
      + rewrite Ebody. now rewrite <- !app_assoc.
      + unfold no_B in *. rewrite forallb_app, Ha. exact Hbody.
    - rewrite firstn_skipn. now rewrite <- !app_assoc. }
  rewrite Heq in Hn.
  destruct Htok as (d & tok' & -> & Hd & _).
  pose proof (size_token_chained isdecimal decimal_apart _ Hn a0 c d tok') as P.
  unfold decimal_or_dot in Hc.
  rewrite P in Hc; [discriminate | | exact Hd].
  now rewrite <- app_assoc.
Qed.

Lemma search_found s n :
  size_pattern isdecimal s = Some n -> search isdecimal s = Some (firstn n s).
Proof. intros H. destruct s; cbn [search]; now rewrite H. Qed.

(** The search returns the token when no B occurs before it and the
    character before it, if any, is neither a digit nor a dot. *)
Lemma search_token a tok r :
  no_B a = true ->
  (forall a0 c, a = a0 ++ [c] -> decimal_or_dot isdecimal c = false) ->
  size_token isdecimal tok ->
  search isdecimal (a ++ tok ++ r) = Some tok.
Proof.
  intros Ha Hlast Htok. induction a as [|x a IH].
  - cbn [app]. rewrite (search_found _ _ (size_pattern_exact tok r Htok)).
    now rewrite firstn_app, Nat.sub_diag, firstn_all, app_nil_r.
  - destruct (exists_last (l := x :: a) ltac:(discriminate)) as (a0 & c & E).
    assert (Hnone : size_pattern isdecimal ((x :: a) ++ tok ++ r) = None).
    { rewrite E. apply no_match_before; [now rewrite <- E | eauto | assumption]. }
    cbn [app search] in *. rewrite Hnone. apply IH.
    + unfold no_B in *. cbn [forallb] in Ha.
      now apply andb_true_iff in Ha as [_ Ha].
    + intros a1 c1 E1. apply (Hlast (x :: a1) c1). now rewrite E1.
Qed.

(** The search returns the token that no token of the line starts
    before. *)
Lemma search_first_token a tok r :
  size_token isdecimal tok ->
  (forall a' tok' r',
      a ++ tok ++ r = a' ++ tok' ++ r' -> size_token isdecimal tok' ->
      List.length a <= List.length a') ->
  search isdecimal (a ++ tok ++ r) = Some tok.
Proof.
  intros Htok. induction a as [|x a IH]; intros Hfirst.
  - cbn [app]. rewrite (search_found _ _ (size_pattern_exact tok r Htok)).
    now rewrite firstn_app, Nat.sub_diag, firstn_all, app_nil_r.
  - assert (Hnone : size_pattern isdecimal ((x :: a) ++ tok ++ r) = None).
    { destruct (size_pattern isdecimal ((x :: a) ++ tok ++ r)) as [n|] eqn:E;
        [exfalso|reflexivity].
      destruct (size_pattern_sound isdecimal _ _ E) as [_ Hn].
      specialize (Hfirst [] _ (skipn n ((x :: a) ++ tok ++ r))
                    (eq_sym (firstn_skipn n _)) Hn).
      cbn [List.length] in Hfirst. lia. }
    cbn [app search] in *. rewrite Hnone. apply IH.
    intros a' tok' r' E Htok'.
    specialize (Hfirst (x :: a') tok' r'). cbn [app List.length] in Hfirst.
    rewrite E in Hfirst. specialize (Hfirst eq_refl Htok'). lia.
Qed.

(** A line in which the pattern matches at none of the first [n]
    positions has no token that starts at one of them. *)
Lemma no_token_before row n :
  forallb (fun k => match size_pattern isdecimal (skipn k row) with
                    | None => true
                    | Some _ => false
                    end) (seq 0 n) = true ->
  forall a' tok' r',
    row = a' ++ tok' ++ r' -> size_token isdecimal tok' ->
    n <= List.length a'.
Proof.
  intros Hall a' tok' r' E Htok'.
  destruct (Nat.le_gt_cases n (List.length a')) as [|Hlt]; [assumption|].
  exfalso. rewrite forallb_forall in Hall.
  specialize (Hall (List.length a')). rewrite in_seq in Hall.
  specialize (Hall ltac:(lia)).
  rewrite E, skipn_app, skipn_all, Nat.sub_diag in Hall.
  cbn [app skipn] in Hall.
  pose proof (size_pattern_complete isdecimal tok' r' Htok') as Hsome.
  destruct (size_pattern isdecimal (tok' ++ r')); [discriminate|congruence].
Qed.

End Search.

(** ** The listing *)

Lemma ascii_digit_apart : Re.apart Re.ascii_digit.
Proof.
  intros c H. unfold Re.ascii_digit in H.
  apply andb_true_iff in H as [H1 H2].
  apply N.leb_le in H1. apply N.leb_le in H2.
  assert (E : (c = 48 \/ c = 49 \/ c = 50 \/ c = 51 \/ c = 52 \/ c = 53
               \/ c = 54 \/ c = 55 \/ c = 56 \/ c = 57)%N) by lia.
  repeat destruct E as [->|E]; try subst c; vm_compute; auto.
Qed.

Section Listing.

Variable isdecimal : char -> bool.

Lemma size_loop_skip id (pre rest : list str) (size : str) :
  (forall l, In l pre -> startswith id (strip l) = false) ->
  size_loop isdecimal id (pre ++ rest) size = size_loop isdecimal id rest size.
Proof.
  induction pre as [|x pre IH]; intros Hpre; [reflexivity|].
  cbn [app size_loop]. rewrite (Hpre x (or_introl eq_refl)).
  apply IH. intros l Hl. apply Hpre. now right.
Qed.

Lemma size_loop_stop id (row : str) (rest : list str) (size : str) :
  startswith id (strip row) = true ->
  size_loop isdecimal id (row :: rest) size
  = match Re.search isdecimal row with Some m => m | None => size end.
Proof. intros H. cbn [size_loop]. now rewrite H. Qed.

Lemma size_loop_none id (lines : list str) (size : str) :
  (forall l, In l lines -> startswith id (strip l) = false) ->
  size_loop isdecimal id lines size = size.
Proof.
  intros H. rewrite <- (app_nil_r lines). now rewrite size_loop_skip.
Qed.

Hypothesis decimal_apart : Re.apart isdecimal.


End Listing.



(** ** The runs of the handler *)

Section Runs.

Variable isdecimal : char -> bool.
Variable World : Type.
Variable execute : World -> list str -> CompletedProcess * World.

Local Abbreviation window := (window World).
Local Abbreviation run := (take_snapshot isdecimal execute).
Local Abbreviation outcome := (@outcome isdecimal World).

Ltac unfold_handler :=
  unfold take_snapshot, take_snapshot_m, try_except_finally, try_body,
    handle, bind, ret, raise, subprocess_run, showMessage, setEnabled,
    logger, message, clear_input.

Ltac proj := cbn [fst snd comment_input snap_button status_bar boxes log spawns os
                  returncode stdout stderr].

Ltac split_run :=
  repeat (proj; match goal with
    | |- context [execute ?o ?a] => destruct (execute o a) eqn:?
    | |- context [if ?b then _ else _] => destruct b eqn:?
    end); proj.

Lemma falsy_nil (s : str) : falsy s = true -> s = [].
Proof. destruct s; [reflexivity | discriminate]. Qed.

Lemma falsy_cons (s : str) : falsy s = false -> s <> [].
Proof. destruct s; [discriminate | discriminate]. Qed.

Lemma falsy_opt_some (o : option str) :
  falsy_opt o = false -> exists s, o = Some s /\ s <> [].
Proof.
  destruct o as [s|]; cbn [falsy_opt]; [|discriminate].
  intros H. exists s. split; [reflexivity | now apply falsy_cons].
Qed.

(** Every click goes one of the seven ways. *)
Lemma take_snapshot_outcome (w : window) :
  exists new box,
    outcome w new box (comment_input (run w)) (snap_button (run w))
    /\ spawns (run w) = spawns w ++ new
    /\ boxes (run w) = boxes w ++ [box].
Proof.
  unfold_handler.
  destruct (falsy (strip (comment_input w))) eqn:Hc.
  - apply falsy_nil in Hc. proj.
    exists [], warning_box. rewrite app_nil_r.
    repeat split. now constructor.
  - apply falsy_cons in Hc.
    split_run;
      repeat match goal with
        | H : (_ =? _)%Z = true |- _ => apply Z.eqb_eq in H
        | H : (_ =? _)%Z = false |- _ => apply Z.eqb_neq in H
        | H : falsy _ = true |- _ => apply falsy_nil in H
        | H : falsy _ = false |- _ => apply falsy_cons in H
        end;
      rewrite <- ?app_assoc; cbn [app].
    all: try match goal with
      | H : falsy_opt _ = false |- _ =>
          destruct (falsy_opt_some _ H) as (subvolume & Esub & Hsub);
          unfold snapshot_path; rewrite ?Esub; cbn [fmt]
      end.
    all: refine (ex_intro _ _ (ex_intro _ _ (conj _ (conj eq_refl eq_refl)))).
    all: first [ now constructor
               | eapply Succeeded; eassumption
               | eapply ListFailed; try eassumption; now rewrite Esub ].
Qed.

(** The run of a click on an empty description, in full. *)
Lemma rejected_run (w : window) :
  strip (comment_input w) = [] ->
  run w = {| comment_input := comment_input w; snap_button := snap_button w;
             status_bar := status_bar w;
             boxes := boxes w ++ [warning_box];
             log := log w; spawns := spawns w; os := os w |}.
Proof.
  intros H. unfold take_snapshot, take_snapshot_m. rewrite H. reflexivity.
Qed.

(** ** C4 *)

(** C4. A click on an empty description shows the warning and spawns
    no process: the list of processes and the state of the operating
    system are as before, and so are the line edit and the button. *)
Theorem empty_description_rejected (w : window) :
  comment_input w = [] ->
  boxes (run w) = boxes w ++ [warning_box]
  /\ spawns (run w) = spawns w
  /\ os (run w) = os w
  /\ comment_input (run w) = comment_input w
  /\ snap_button (run w) = snap_button w.
Proof.
  intros H. rewrite rejected_run by (rewrite H; reflexivity).
  repeat split.
Qed.

(** ** C9 *)

Lemma not_create (args : list str) :
  args = config_argv \/ args = list_argv ->
  nth 2 args [] <> u "create".
Proof. intros [->| ->]; vm_compute; discriminate. Qed.

(** C9. A description made of white space only is rejected like the
    empty one, with no process spawned; and when the handler does go
    on, the first process is the create command, its description is
    the text of the line edit with the white space around it removed,
    and no later process is a create command. *)
Theorem whitespace_description_is_empty (w : window) :
  (forallb isspace (comment_input w) = true ->
     boxes (run w) = boxes w ++ [warning_box]
     /\ spawns (run w) = spawns w
     /\ os (run w) = os w)
  /\ (strip (comment_input w) <> [] ->
      exists p rest,
        spawns (run w) = spawns w ++ p :: rest
        /\ argv p = create_argv (strip (comment_input w))
        /\ nth 4 (argv p) [] = strip (comment_input w)
        /\ forall q, In q rest -> nth 2 (argv q) [] <> u "create").
Proof.
  split.
  - intros H. rewrite rejected_run by now apply strip_blank.
    repeat split.
  - intros Hc.
    destruct (take_snapshot_outcome w) as (new & box & Hout & Hs & _).
    rewrite Hs. clear Hs.
    destruct Hout; [congruence | ..];
      (eexists; eexists; split; [reflexivity|]);
      (split; [reflexivity|]); (split; [reflexivity|]);
      intros q Hq; cbn [In] in Hq;
      repeat destruct Hq as [<-|Hq]; try destruct Hq;
      apply not_create; cbn [argv spawn]; auto.
Qed.

(** ** C5 *)

(** C5. When a process the handler spawned exits with a status other
    than zero, the box shown is the error box whose text is the fixed
    prefix followed by the error stream of that process, unchanged;
    that process is the last one spawned. *)
Theorem failed_process_surfaced
    (w : window) (new : list spawned) (p : spawned) :
  spawns (run w) = spawns w ++ new ->
  In p new ->
  returncode (completed p) <> 0%Z ->
  boxes (run w)
  = boxes w ++ [error_box (u "Failed to create snapshot. Error: "
                             ++ stderr (completed p))]
  /\ exists before, new = before ++ [p].
Proof.
  intros Hs Hin Hrc.
  destruct (take_snapshot_outcome w) as (new0 & box & Hout & Hs0 & Hb).
  rewrite Hs0 in Hs. apply app_inv_head in Hs. subst new0.
  rewrite Hb. clear Hb Hs0.
  destruct Hout; cbn [In] in Hin;
    repeat destruct Hin as [<-|Hin]; try destruct Hin;
    cbn [completed spawn] in Hrc; try congruence.
  - split; [reflexivity|]. now exists [].
  - split; [reflexivity|]. now exists [spawn (create_argv (strip (comment_input w))) r1].
  - split; [reflexivity|].
    now exists [spawn (create_argv (strip (comment_input w))) r1;
                spawn config_argv r2].
Qed.

(** ** C6 *)

(** C6, as the code has it. With a description that is not empty once
    trimmed, the processes spawned are the create command, then
    get-config, then list, in that order and with no other; get-config
    is spawned only after create exited with zero and printed an
    identifier, list only after get-config exited with zero and
    yielded a subvolume. *)
Theorem commands_in_order (w : window) :
  strip (comment_input w) <> [] ->
  exists new,
    spawns (run w) = spawns w ++ new
    /\ ((exists r1,
           new = [spawn (create_argv (strip (comment_input w))) r1]
           /\ (returncode r1 <> 0%Z \/ strip (stdout r1) = []))
        \/ (exists r1 r2,
              new = [spawn (create_argv (strip (comment_input w))) r1;
                     spawn config_argv r2]
              /\ returncode r1 = 0%Z /\ strip (stdout r1) <> []
              /\ (returncode r2 <> 0%Z
                  \/ falsy_opt (find_subvolume (stdout r2)) = true))
        \/ (exists r1 r2 r3,
              new = [spawn (create_argv (strip (comment_input w))) r1;
                     spawn config_argv r2; spawn list_argv r3]
              /\ returncode r1 = 0%Z /\ strip (stdout r1) <> []
              /\ returncode r2 = 0%Z
              /\ falsy_opt (find_subvolume (stdout r2)) = false)).
Proof.
  intros Hc.
  destruct (take_snapshot_outcome w) as (new & box & Hout & Hs & _).
  exists new. split; [exact Hs|]. clear Hs.
  destruct Hout; [congruence | ..].
  - left. eauto.
  - left. eauto.
  - right. left. exists r1, r2. auto.
  - right. left. exists r1, r2. auto.
  - right. right. exists r1, r2, r3. auto.
  - right. right. exists r1, r2, r3. repeat split; auto.
    match goal with H : find_subvolume _ = Some _ |- _ => rewrite H end.
    cbn [falsy_opt]. now destruct subvolume.
Qed.

(** ** C7 *)

(** C7. When the handler shows the success box, the three processes
    have run, and the text of the box is made of the identifier the
    create command printed, the size found in the listing and the
    location, which is the subvolume, then /.snapshots/, then the
    identifier, then /snapshot. *)
Theorem success_summary (w : window) (text : str) :
  boxes (run w) = boxes w ++ [success_box text] ->
  exists r1 r2 r3 subvolume,
    spawns (run w)
    = spawns w ++ [spawn (create_argv (strip (comment_input w))) r1;
                   spawn config_argv r2; spawn list_argv r3]
    /\ find_subvolume (stdout r2) = Some subvolume
    /\ text
       = u "Snapshot #" ++ strip (stdout r1) ++ u " created successfully!"
           ++ [nl; nl]
           ++ u "Size: "
           ++ find_size isdecimal (strip (stdout r1)) (stdout r3) ++ [nl]
           ++ u "Location: "
           ++ (subvolume ++ u "/.snapshots/" ++ strip (stdout r1)
                 ++ u "/snapshot").
Proof.
  intros Hbox.
  destruct (take_snapshot_outcome w) as (new & box & Hout & Hs & Hb).
  rewrite Hb in Hbox. apply app_inv_head in Hbox.
  injection Hbox as ->. rewrite Hs. clear Hs Hb.
  inversion Hout; subst.
  exists r1, r2, r3, subvolume. auto.
Qed.

(** ** C10 *)

(** C10. Every click shows one box; the line edit is empty afterwards
    when that box is the success box, and holds the text it held
    before the click when the box is the warning or an error box. *)
Theorem input_cleared_on_success_only (w : window) :
  exists box,
    boxes (run w) = boxes w ++ [box]
    /\ comment_input (run w)
       = match box_icon box with
         | Information => []
         | Warning | Critical => comment_input w
         end.
Proof.
  destruct (take_snapshot_outcome w) as (new & box & Hout & _ & Hb).
  exists box. split; [exact Hb|].
  remember (comment_input (run w)) as after.
  clear Heqafter Hb. destruct Hout; reflexivity.
Qed.

(** ** C8 *)

Lemma button_after_click (w : window) :
  exists new,
    spawns (run w) = spawns w ++ new
    /\ Forall spawned_disabled new
    /\ snap_button (run w)
       = if falsy (strip (comment_input w)) then snap_button w else true.
Proof.
  destruct (take_snapshot_outcome w) as (new & box & Hout & Hs & _).
  exists new. split; [exact Hs|].
  remember (snap_button (run w)) as after.
  clear Heqafter Hs.
  destruct Hout;
    (split; [repeat constructor|]);
    match goal with
    | H : strip _ = [] |- _ => now rewrite H
    | H : strip _ <> [] |- _ =>
        destruct (strip (comment_input w)); [congruence | reflexivity]
    end.
Qed.

Lemma session_invariant (texts : list str) (w : window) :
  snap_button w = true ->
  Forall spawned_disabled (spawns w) ->
  snap_button (session isdecimal execute texts w) = true
  /\ Forall spawned_disabled (spawns (session isdecimal execute texts w)).
Proof.
  revert w. induction texts as [|text texts IH]; intros w Hb Hs; [auto|].
  cbn [session]. apply IH.
  - destruct (button_after_click (set_text text w)) as (new & _ & _ & E).
    rewrite E. cbn [set_text snap_button]. rewrite Hb. now destruct (falsy _).
  - destruct (button_after_click (set_text text w)) as (new & E & Hnew & _).
    rewrite E. apply Forall_app. split; [exact Hs | exact Hnew].
Qed.

(** C8. Every process is spawned with the button disabled, and a click
    that disables the button enables it again before it ends, however
    it ends; a click on an empty description leaves the button as it
    is.  So, from the window as it is created and through any sequence
    of texts typed and clicks made, the button is enabled after every
    click and no process was ever spawned with the button enabled. *)
Theorem button_reenabled :
  (forall w : window,
      exists new,
        spawns (run w) = spawns w ++ new
        /\ Forall spawned_disabled new
        /\ snap_button (run w)
           = if falsy (strip (comment_input w)) then snap_button w else true)
  /\ (forall (texts : list str) (o : World),
         snap_button (session isdecimal execute texts (fresh [] o)) = true
         /\ Forall spawned_disabled
              (spawns (session isdecimal execute texts (fresh [] o)))).
Proof.
  split.
  - exact button_after_click.
  - intros texts o. apply session_invariant; [reflexivity | constructor].
Qed.

(** ** C3 *)

Lemma no_size_unknown (snapshot_num details_stdout : str) :
  no_size_token isdecimal snapshot_num details_stdout ->
  find_size isdecimal snapshot_num details_stdout = u "Unknown".
Proof.
  intros H. unfold find_size.
  destruct (first_such (fun l => startswith snapshot_num (strip l))
              (split nl details_stdout))
    as [Hnone|(pre & row & post & E & Hpre & Hrow)].
  - now apply size_loop_none.
  - rewrite E, size_loop_skip, size_loop_stop by assumption.
    now rewrite (H pre row post E Hpre Hrow).
Qed.

(** C3, as the code has it.  A create command that exits with zero and
    prints no identifier, and a get-config that exits with zero and
    yields no subvolume, each end the run with the error box for the
    missing field, no further process being spawned.  A listing that
    yields no size does not: the run ends with the success box, the
    size in it being the word Unknown. *)
Theorem missing_field_outcomes (w : window) (new : list spawned) :
  spawns (run w) = spawns w ++ new ->
  (forall p1 rest,
      new = p1 :: rest ->
      returncode (completed p1) = 0%Z ->
      strip (stdout (completed p1)) = [] ->
      rest = []
      /\ boxes (run w)
         = boxes w ++ [error_box (u "An unexpected error occurred: "
                                    ++ u "Failed to get snapshot number")])
  /\ (forall p1 p2 rest,
         new = p1 :: p2 :: rest ->
         returncode (completed p2) = 0%Z ->
         falsy_opt (find_subvolume (stdout (completed p2))) = true ->
         rest = []
         /\ boxes (run w)
            = boxes w ++ [error_box (u "An unexpected error occurred: "
                                       ++ u "Failed to get subvolume path")])
  /\ (forall p1 p2 p3 rest,
         new = p1 :: p2 :: p3 :: rest ->
         returncode (completed p3) = 0%Z ->
         no_size_token isdecimal (strip (stdout (completed p1)))
           (stdout (completed p3)) ->
         exists path,
           boxes (run w)
           = boxes w ++ [success_box
                           (success_msg (strip (stdout (completed p1)))
                              (u "Unknown") path)]).
Proof.
  intros Hs.
  destruct (take_snapshot_outcome w) as (new0 & box & Hout & Hs0 & Hb).
  rewrite Hs0 in Hs. apply app_inv_head in Hs. subst new0.
  rewrite Hb. clear Hb Hs0.
  split; [|split].
  - intros p1 rest E Hrc Hnum.
    destruct Hout; inversion E; subst; cbn [completed spawn] in *;
      try congruence; auto.
  - intros p1 p2 rest E Hrc Hsub.
    destruct Hout; inversion E; subst; cbn [completed spawn] in *;
      try congruence; auto.
    match goal with H : find_subvolume _ = Some _ |- _ => rewrite H in Hsub end.
    cbn [falsy_opt] in Hsub. destruct subvolume; [congruence | discriminate].
  - intros p1 p2 p3 rest E Hrc Hsize.
    destruct Hout; inversion E; subst; cbn [completed spawn] in *;
      try congruence.
    rewrite (no_size_unknown _ _ Hsize). eauto.
Qed.

End Runs.

(** ** Runs against a scripted system *)

Lemma empty_description_rejected_witness :
  boxes (click [] [ok (u "12")]) = [] ++ [warning_box]
  /\ spawns (click [] [ok (u "12")]) = []
  /\ os (click [] [ok (u "12")]) = [ok (u "12")]
  /\ comment_input (click [] [ok (u "12")]) = []
  /\ snap_button (click [] [ok (u "12")]) = true.
Proof.
  apply (empty_description_rejected Re.ascii_digit script play
           (fresh [] [ok (u "12")])).
  reflexivity.
Defined.

Lemma whitespace_description_is_empty_witness :
  (boxes (click (u "   ") [ok (u "12")]) = [] ++ [warning_box]
   /\ spawns (click (u "   ") [ok (u "12")]) = []
   /\ os (click (u "   ") [ok (u "12")]) = [ok (u "12")])
  /\ (exists p rest,
         spawns (click (u " x ") [ok (u "12")]) = [] ++ p :: rest
         /\ argv p = create_argv (strip (u " x "))
         /\ nth 4 (argv p) [] = strip (u " x ")
         /\ forall q, In q rest -> nth 2 (argv q) [] <> u "create").
Proof.
  split.
  - apply (proj1 (whitespace_description_is_empty Re.ascii_digit script play
                    (fresh (u "   ") [ok (u "12")]))).
    reflexivity.
  - apply (proj2 (whitespace_description_is_empty Re.ascii_digit script play
                    (fresh (u " x ") [ok (u "12")]))).
    vm_compute. discriminate.
Defined.

Lemma failed_process_surfaced_witness :
  boxes (click (u "x") [ok (u "12"); failed 1 (u "IO error")])
  = [] ++ [error_box (u "Failed to create snapshot. Error: "
                        ++ u "IO error")]
  /\ exists before,
       [spawn (create_argv (u "x")) (ok (u "12"));
        spawn config_argv (failed 1 (u "IO error"))]
       = before ++ [spawn config_argv (failed 1 (u "IO error"))].
Proof.
  apply (failed_process_surfaced Re.ascii_digit script play
           (fresh (u "x") [ok (u "12"); failed 1 (u "IO error")])
           [spawn (create_argv (u "x")) (ok (u "12"));
            spawn config_argv (failed 1 (u "IO error"))]
           (spawn config_argv (failed 1 (u "IO error")))).
  - vm_compute. reflexivity.
  - simpl. auto.
  - simpl. lia.
Defined.

Lemma commands_in_order_witness :
  exists new,
    spawns (click (u "x") [ok (u "12"); ok config_table; ok listing])
    = [] ++ new
    /\ ((exists r1,
           new = [spawn (create_argv (strip (u "x"))) r1]
           /\ (returncode r1 <> 0%Z \/ strip (stdout r1) = []))
        \/ (exists r1 r2,
              new = [spawn (create_argv (strip (u "x"))) r1;
                     spawn config_argv r2]
              /\ returncode r1 = 0%Z /\ strip (stdout r1) <> []
              /\ (returncode r2 <> 0%Z
                  \/ falsy_opt (find_subvolume (stdout r2)) = true))
        \/ (exists r1 r2 r3,
              new = [spawn (create_argv (strip (u "x"))) r1;
                     spawn config_argv r2; spawn list_argv r3]
              /\ returncode r1 = 0%Z /\ strip (stdout r1) <> []
              /\ returncode r2 = 0%Z
              /\ falsy_opt (find_subvolume (stdout r2)) = false)).
Proof.
  apply (commands_in_order Re.ascii_digit script play
           (fresh (u "x") [ok (u "12"); ok config_table; ok listing])).
  vm_compute. discriminate.
Defined.

(** C6, as the claim has it, fails twice over: a description of one
    space is not empty, and no process is spawned for it; and a create
    command that exits with zero but prints a blank line is the only
    process of its run, though no command failed. *)
Lemma commands_not_always_three :
  map argv (spawns (click (u " ") [ok (u "12"); ok config_table; ok listing]))
  = []
  /\ map (fun p => (argv p, returncode (completed p)))
       (spawns (click (u "x") [ok [nl]; ok config_table; ok listing]))
     = [(create_argv (u "x"), 0%Z)].
Proof. split; vm_compute; reflexivity. Qed.

Lemma success_summary_witness :
  exists r1 r2 r3 subvolume,
    spawns (click (u " x ") [ok (u "12" ++ [nl]); ok config_table; ok listing])
    = [] ++ [spawn (create_argv (strip (u " x "))) r1;
             spawn config_argv r2; spawn list_argv r3]
    /\ find_subvolume (stdout r2) = Some subvolume
    /\ u "Snapshot #12 created successfully!" ++ [nl; nl]
         ++ u "Size: 364.00 KiB" ++ [nl]
         ++ u "Location: /home/.snapshots/12/snapshot"
       = u "Snapshot #" ++ strip (stdout r1) ++ u " created successfully!"
           ++ [nl; nl]
           ++ u "Size: "
           ++ find_size Re.ascii_digit (strip (stdout r1)) (stdout r3) ++ [nl]
           ++ u "Location: "
           ++ (subvolume ++ u "/.snapshots/" ++ strip (stdout r1)
                 ++ u "/snapshot").
Proof.
  apply (success_summary Re.ascii_digit script play
           (fresh (u " x ") [ok (u "12" ++ [nl]); ok config_table; ok listing])).
  vm_compute. reflexivity.
Defined.

(** C3, as the claim has it, fails for the size: the row of snapshot 12
    has no match of the pattern, and the run ends with the success box,
    the size being Unknown. *)
Lemma missing_size_is_success :
  Re.search Re.ascii_digit (u "12 | single |            | x") = None
  /\ boxes (click (u "x")
              [ok (u "12" ++ [nl]); ok config_table; ok listing_without_size])
     = [success_box
          (u "Snapshot #12 created successfully!" ++ [nl; nl]
             ++ u "Size: Unknown" ++ [nl]
             ++ u "Location: /home/.snapshots/12/snapshot")].
Proof. split; vm_compute; reflexivity. Qed.

Lemma listing_without_size_has_none :
  no_size_token Re.ascii_digit (u "12") listing_without_size.
Proof.
  intros pre row post E Hpre Hrow.
  change (split nl listing_without_size)
    with [u " # | Type   | Used Space | Description";
          u "12 | single |            | x"; []] in E.
  destruct pre as [|a [|b [|c pre]]]; cbn [app] in E.
  - injection E as <- _. vm_compute in Hrow. discriminate.
  - injection E as _ <- _. vm_compute. reflexivity.
  - injection E as _ _ <- _. vm_compute in Hrow. discriminate.
  - injection E as _ _ _ E. now destruct pre.
Qed.

Lemma missing_field_outcomes_witness :
  boxes (click (u "x") [ok [nl]])
  = [] ++ [error_box (u "An unexpected error occurred: "
                        ++ u "Failed to get snapshot number")]
  /\ boxes (click (u "x") [ok (u "12"); ok (u "SUBVOLUME | /")])
     = [] ++ [error_box (u "An unexpected error occurred: "
                           ++ u "Failed to get subvolume path")]
  /\ exists path,
       boxes (click (u "x")
                [ok (u "12"); ok config_table; ok listing_without_size])
       = [] ++ [success_box (success_msg (strip (u "12")) (u "Unknown") path)].
Proof.
  split; [|split].
  - apply (proj1 (missing_field_outcomes Re.ascii_digit script play
                    (fresh (u "x") [ok [nl]])
                    [spawn (create_argv (u "x")) (ok [nl])]
                    ltac:(vm_compute; reflexivity))
             (spawn (create_argv (u "x")) (ok [nl])) []);
      reflexivity.
  - apply (proj1 (proj2 (missing_field_outcomes Re.ascii_digit script play
                    (fresh (u "x") [ok (u "12"); ok (u "SUBVOLUME | /")])
                    [spawn (create_argv (u "x")) (ok (u "12"));
                     spawn config_argv (ok (u "SUBVOLUME | /"))]
                    ltac:(vm_compute; reflexivity)))
             (spawn (create_argv (u "x")) (ok (u "12")))
             (spawn config_argv (ok (u "SUBVOLUME | /"))) []);
      reflexivity.
  - apply (proj2 (proj2 (missing_field_outcomes Re.ascii_digit script play
                    (fresh (u "x")
                       [ok (u "12"); ok config_table; ok listing_without_size])
                    [spawn (create_argv (u "x")) (ok (u "12"));
                     spawn config_argv (ok config_table);
                     spawn list_argv (ok listing_without_size)]
                    ltac:(vm_compute; reflexivity)))
             (spawn (create_argv (u "x")) (ok (u "12")))
             (spawn config_argv (ok config_table))
             (spawn list_argv (ok listing_without_size)) []).
    + reflexivity.
    + reflexivity.
    + exact listing_without_size_has_none.
Defined.

(** ** More on strings *)

Section Trimming.

Lemma lstrip_split (s : str) :
  exists ws, s = ws ++ lstrip s /\ forallb isspace ws = true.
Proof.
  induction s as [|c s (ws & E & Hws)]; [now exists []|].
  cbn [lstrip]. destruct (isspace c) eqn:Hc.
  - exists (c :: ws). cbn [app forallb]. rewrite Hc, Hws. split; [congruence|reflexivity].
  - now exists [].
Qed.

Lemma lstrip_cases (s : str) :
  lstrip s = [] \/ exists c t, lstrip s = c :: t /\ isspace c = false.
Proof.
  induction s as [|c s IH]; [now left|].
  cbn [lstrip]. destruct (isspace c) eqn:Hc; [exact IH|].
  right. now exists c, s.
Qed.

Lemma lstrip_fixed (c : char) (t : str) :
  isspace c = false -> lstrip (c :: t) = c :: t.
Proof. intros H. cbn [lstrip]. now rewrite H. Qed.

Lemma lstrip_idem (s : str) : lstrip (lstrip s) = lstrip s.
Proof.
  destruct (lstrip_cases s) as [->|(c & t & -> & Hc)]; [reflexivity|].
  now apply lstrip_fixed.
Qed.

Lemma rstrip_split (s : str) :
  exists ws, s = rstrip s ++ ws /\ forallb isspace ws = true.
Proof.
  destruct (lstrip_split (rev s)) as (ws & E & Hws).
  exists (rev ws). split.
  - unfold rstrip. rewrite <- rev_app_distr, <- E. symmetry. apply rev_involutive.
  - apply forallb_forall. intros x Hx. apply in_rev in Hx.
    revert x Hx. now apply forallb_forall.
Qed.

Lemma rstrip_idem (s : str) : rstrip (rstrip s) = rstrip s.
Proof. unfold rstrip. now rewrite rev_involutive, lstrip_idem. Qed.

(** Trimming the right end leaves a left end that is trimmed as it is. *)
Lemma lstrip_rstrip (t : str) : lstrip t = t -> lstrip (rstrip t) = rstrip t.
Proof.
  intros Ht. destruct (rstrip_split t) as (ws & E & _).
  destruct (rstrip t) as [|c r]; [reflexivity|].
  destruct (lstrip_cases t) as [H0|(c' & t' & E' & Hc)].
  - rewrite Ht in H0. rewrite H0 in E. discriminate.
  - rewrite Ht in E'. rewrite E' in E. injection E as -> _.
    now apply lstrip_fixed.
Qed.

Lemma strip_lstrip (s : str) : lstrip (strip s) = strip s.
Proof. unfold strip. apply lstrip_rstrip, lstrip_idem. Qed.

Lemma strip_rstrip (s : str) : rstrip (strip s) = strip s.
Proof. unfold strip. apply rstrip_idem. Qed.

Lemma strip_idem (s : str) : strip (strip s) = strip s.
Proof.
  unfold strip at 1. now rewrite strip_lstrip, strip_rstrip.
Qed.

Lemma strip_split (s : str) :
  exists ws1 ws2,
    s = ws1 ++ strip s ++ ws2
    /\ forallb isspace ws1 = true /\ forallb isspace ws2 = true.
Proof.
  destruct (lstrip_split s) as (ws1 & E1 & H1).
  destruct (rstrip_split (lstrip s)) as (ws2 & E2 & H2).
  exists ws1, ws2. unfold strip. now rewrite <- E2.
Qed.

Lemma strip_incl (s : str) (c : char) : In c (strip s) -> In c s.
Proof.
  intros H. destruct (strip_split s) as (ws1 & ws2 & E & _).
  rewrite E. apply in_or_app. right. apply in_or_app. now left.
Qed.

Lemma strip_nil_blank (s : str) : strip s = [] -> forallb isspace s = true.
Proof.
  intros H. destruct (strip_split s) as (ws1 & ws2 & E & H1 & H2).
  rewrite E, H. cbn [app]. now rewrite forallb_app, H1, H2.
Qed.

End Trimming.

Section Splitting.

Variable sep : char.

Lemma split_not_nil (s : str) : split sep s <> [].
Proof.
  destruct s as [|c s]; cbn [split]; [discriminate|].
  destruct (c =? sep)%N; [discriminate|]. destruct (split sep s); discriminate.
Qed.

Lemma split_no_sep (s w : str) : In w (split sep s) -> ~ In sep w.
Proof.
  revert w. induction s as [|c s IH]; intros w; cbn [split].
  - intros [<-|[]] [].
  - destruct (N.eqb_spec c sep) as [->|Hc].
    + intros [<-|H]; [intros []|now apply IH].
    + destruct (split sep s) as [|w0 ws] eqn:E.
      * intros [<-|[]] [->|[]]. congruence.
      * intros [<-|H].
        -- intros [->|H0]; [congruence|]. apply (IH w0); [now left|assumption].
        -- apply IH. now right.
Qed.

Lemma split_incl (s w : str) (x : char) :
  In w (split sep s) -> In x w -> In x s.
Proof.
  revert w. induction s as [|c s IH]; intros w; cbn [split].
  - intros [<-|[]] [].
  - destruct (c =? sep)%N.
    + intros [<-|H] Hx; [destruct Hx|]. right. now apply (IH w).
    + destruct (split sep s) as [|w0 ws] eqn:E.
      * intros [<-|[]] [->|[]]. now left.
      * intros [<-|H] Hx.
        -- destruct Hx as [->|Hx]; [now left|]. right. apply (IH w0); [now left|assumption].
        -- right. apply (IH w); [now right|assumption].
Qed.

Lemma split_single (s : str) : ~ In sep s -> split sep s = [s].
Proof.
  induction s as [|c s IH]; intros H; [reflexivity|].
  cbn [split]. destruct (N.eqb_spec c sep) as [->|Hc].
  - exfalso. apply H. now left.
  - rewrite IH; [reflexivity|]. intros Hin. apply H. now right.
Qed.

(** Splitting a text cut at a separator: the pieces of the two parts. *)
Lemma split_app (a b : str) :
  split sep (a ++ sep :: b) = split sep a ++ split sep b.
Proof.
  induction a as [|c a IH]; cbn [app split].
  - now rewrite N.eqb_refl.
  - destruct (c =? sep)%N.
    + now rewrite IH.
    + rewrite IH. destruct (split sep a) as [|w ws] eqn:E.
      * exfalso. now apply (split_not_nil a).
      * reflexivity.
Qed.

End Splitting.

Lemma startswith_prefix (p s : str) :
  startswith p s = true -> exists r, s = p ++ r.
Proof.
  revert s. induction p as [|a p IH]; intros s H; [now exists s|].
  destruct s as [|b s]; cbn [startswith] in H; [discriminate|].
  apply andb_true_iff in H as [Hab H]. apply N.eqb_eq in Hab as ->.
  destruct (IH s H) as (r & ->). now exists r.
Qed.

(** ** More on the search *)

Section SearchFacts.

Import Re.

Variable isdecimal : char -> bool.

Lemma size_pattern_nil : size_pattern isdecimal [] = None.
Proof. reflexivity. Qed.

(** What the search returns, and where: a token of the pattern, with no
    token starting at any earlier position. *)
Lemma search_position (s m : str) :
  search isdecimal s = Some m ->
  exists a b,
    s = a ++ m ++ b
    /\ size_token isdecimal m
    /\ forall k, k < List.length a -> size_pattern isdecimal (skipn k s) = None.
Proof.
  revert m. induction s as [|c s IH]; intros m.
  - cbn [search]. rewrite size_pattern_nil. discriminate.
  - cbn [search]. destruct (size_pattern isdecimal (c :: s)) as [n|] eqn:E.
    + intros H. injection H as <-.
      destruct (size_pattern_sound isdecimal _ _ E) as [_ Htok].
      exists [], (skipn n (c :: s)). cbn [app List.length].
      rewrite firstn_skipn. repeat split; auto. intros k Hk. lia.
    + intros H. destruct (IH m H) as (a & b & Es & Htok & Hleft).
      exists (c :: a), b. rewrite Es at 1. repeat split; auto.
      intros [|k] Hk; [exact E|]. cbn [skipn]. apply Hleft.
      cbn [List.length] in Hk. lia.
Qed.

Lemma search_finds (a tok b : str) :
  size_token isdecimal tok -> search isdecimal (a ++ tok ++ b) <> None.
Proof.
  intros Htok. induction a as [|c a IH]; cbn [app].
  - pose proof (size_pattern_complete isdecimal tok b Htok) as H.
    destruct (tok ++ b) as [|x t] eqn:E; cbn [search];
      destruct (size_pattern isdecimal _); congruence.
  - cbn [search]. now destruct (size_pattern isdecimal (c :: a ++ tok ++ b)).
Qed.

(** X1. The search fails exactly on the lines that hold no token. *)
Theorem search_none_iff (s : str) :
  search isdecimal s = None
  <-> ~ exists a tok b, s = a ++ tok ++ b /\ size_token isdecimal tok.
Proof.
  split.
  - intros H (a & tok & b & -> & Htok). now apply (search_finds a tok b).
  - intros H. destruct (search isdecimal s) as [m|] eqn:E; [|reflexivity].
    destruct (search_position s m E) as (a & b & Es & Htok & _).
    exfalso. apply H. now exists a, m, b.
Qed.

(** X2. The match is a token and it is the leftmost: no token of the line
    starts before it. *)
Theorem search_leftmost (s m : str) :
  search isdecimal s = Some m ->
  exists a b,
    s = a ++ m ++ b
    /\ size_token isdecimal m
    /\ forall a' tok b',
         s = a' ++ tok ++ b' -> size_token isdecimal tok ->
         List.length a <= List.length a'.
Proof.
  intros H. destruct (search_position s m H) as (a & b & Es & Htok & Hleft).
  exists a, b. repeat split; auto.
  intros a' tok b' Es' Htok'.
  destruct (Nat.le_gt_cases (List.length a) (List.length a')) as [|Hlt]; [assumption|].
  exfalso. specialize (Hleft _ Hlt).
  rewrite Es', skipn_app, skipn_all, Nat.sub_diag in Hleft. cbn [app skipn] in Hleft.
  exact (size_pattern_complete isdecimal tok b' Htok' Hleft).
Qed.

Lemma ends_in_B_closed : closed (fun _ => true) ends_in_B.
Proof. intros c t _ (body & ->). now exists (c :: body). Qed.

Lemma size_token_last (t : str) :
  size_token isdecimal t -> last t 0%N = 66%N.
Proof.
  intros H. assert (Hend : ends_in_B t).
  { revert t H. unfold size_token.
    apply (lift_one (fun _ => true) _ _ _ ends_in_B_closed (fun _ _ => eq_refl)).
    apply (lift_star (fun _ => true) _ _ _ ends_in_B_closed (fun _ _ => eq_refl)).
    apply (lift_opt (fun _ => true) _ _ _ ends_in_B_closed (fun _ _ => eq_refl)).
    apply (lift_star (fun _ => true) _ _ _ ends_in_B_closed (fun _ _ => eq_refl)).
    apply (lift_star (fun _ => true) _ _ _ ends_in_B_closed (fun _ _ => eq_refl)).
    apply (lift_opt (fun _ => true) _ _ _ ends_in_B_closed (fun _ _ => eq_refl)).
    apply (lift_opt (fun _ => true) _ _ _ ends_in_B_closed (fun _ _ => eq_refl)).
    intros t' H. rewrite (final_B _ H). now exists []. }
  destruct Hend as (body & ->). apply last_last.
Qed.

(** A token begins with a digit and ends in B. *)
Lemma size_token_shape (t : str) :
  size_token isdecimal t ->
  exists d body, t = d :: body ++ u "B" /\ isdecimal d = true.
Proof.
  intros (d & t' & -> & Hd & H). exists d.
  assert (Hend : ends_in_B t').
  { revert t' H.
    apply (lift_star (fun _ => true) _ _ _ ends_in_B_closed (fun _ _ => eq_refl)).
    apply (lift_opt (fun _ => true) _ _ _ ends_in_B_closed (fun _ _ => eq_refl)).
    apply (lift_star (fun _ => true) _ _ _ ends_in_B_closed (fun _ _ => eq_refl)).
    apply (lift_star (fun _ => true) _ _ _ ends_in_B_closed (fun _ _ => eq_refl)).
    apply (lift_opt (fun _ => true) _ _ _ ends_in_B_closed (fun _ _ => eq_refl)).
    apply (lift_opt (fun _ => true) _ _ _ ends_in_B_closed (fun _ _ => eq_refl)).
    intros t' H. rewrite (final_B _ H). now exists []. }
  destruct Hend as (body & ->). now exists body.
Qed.

End SearchFacts.

(** ** More on the two tables *)

Section Tables.

Variable isdecimal : char -> bool.

Local Abbreviation find_size := (find_size isdecimal).
Local Abbreviation size_loop := (size_loop isdecimal).

(** The two ways the loop over the listing ends. *)
Lemma find_size_cases (id details_stdout : str) :
  find_size id details_stdout = u "Unknown"
  \/ exists row a b,
       In row (split nl details_stdout)
       /\ begins_with id row = true
       /\ row = a ++ find_size id details_stdout ++ b
       /\ Re.size_token isdecimal (find_size id details_stdout).
Proof.
  unfold Snapper.find_size.
  destruct (first_such (begins_with id) (split nl details_stdout))
    as [Hnone|(pre & row & post & E & Hpre & Hrow)].
  - left. now apply size_loop_none.
  - rewrite E, size_loop_skip, size_loop_stop by assumption.
    destruct (Re.search isdecimal row) as [m|] eqn:Em; [right|now left].
    destruct (search_position isdecimal row m Em) as (a & b & Erow & Htok & _).
    exists row, a, b. repeat split; auto.
    apply in_or_app. right. now left.
Qed.

(** X3. The size reported is the word Unknown or a token of the pattern
    that stands in a line of the listing which begins with the
    identifier; it is never any other text. *)
Theorem reported_size_sound (id details_stdout : str) :
  find_size id details_stdout = u "Unknown"
  \/ exists row a b,
       In row (split nl details_stdout)
       /\ begins_with id row = true
       /\ row = a ++ find_size id details_stdout ++ b
       /\ Re.size_token isdecimal (find_size id details_stdout).
Proof. exact (find_size_cases id details_stdout). Qed.

(** X4. The size reported is one line of text: the word Unknown, or a
    text that begins with a digit and ends in B. *)
Theorem reported_size_shape (id details_stdout : str) :
  ~ In nl (find_size id details_stdout)
  /\ (find_size id details_stdout = u "Unknown"
      \/ exists d body,
           find_size id details_stdout = d :: body ++ u "B"
           /\ isdecimal d = true).
Proof.
  destruct (find_size_cases id details_stdout)
    as [E|(row & a & b & Hrow & _ & Erow & Htok)].
  - rewrite E. split; [|now left].
    vm_compute. intros H. repeat destruct H as [H|H]; try discriminate H.
    exact H.
  - split.
    + intros Hin. apply (split_no_sep nl details_stdout row Hrow).
      rewrite Erow. apply in_or_app. right. apply in_or_app. now left.
    + right. exact (size_token_shape isdecimal _ Htok).
Qed.

(** X5. A line that holds a token gives a size, not the word Unknown. *)
Theorem token_row_gives_size
    (id details_stdout : str) (pre : list str) (row : str)
    (post : list str) (a tok b : str) :
  split nl details_stdout = pre ++ row :: post ->
  (forall l, In l pre -> begins_with id l = false) ->
  begins_with id row = true ->
  row = a ++ tok ++ b ->
  Re.size_token isdecimal tok ->
  Re.size_token isdecimal (find_size id details_stdout)
  /\ find_size id details_stdout <> u "Unknown".
Proof.
  intros E Hpre Hrow Erow Htok.
  unfold Snapper.find_size. rewrite E, size_loop_skip, size_loop_stop by assumption.
  destruct (Re.search isdecimal row) as [m|] eqn:Em.
  - destruct (search_position isdecimal row m Em) as (_ & _ & _ & Hm & _).
    split; [exact Hm|]. intros ->.
    apply size_token_last in Hm. vm_compute in Hm. discriminate.
  - exfalso. rewrite Erow in Em. exact (search_finds isdecimal a tok b Htok Em).
Qed.

Lemma lines_no_newline (out l : str) :
  In l (split nl out) -> ~ In nl (strip l).
Proof.
  intros Hl Hin. apply strip_incl in Hin. exact (split_no_sep nl out l Hl Hin).
Qed.

(** X6. An identifier of more than one line begins no line of the
    listing, so its size is the word Unknown. *)
Theorem multiline_identifier_unknown (id details_stdout : str) :
  In nl id -> find_size id details_stdout = u "Unknown".
Proof.
  intros Hid. unfold Snapper.find_size. apply size_loop_none.
  intros l Hl. destruct (startswith id (strip l)) eqn:E; [|reflexivity].
  exfalso. destruct (startswith_prefix _ _ E) as (r & Er).
  apply (lines_no_newline _ _ Hl). rewrite Er. apply in_or_app. now left.
Qed.

Lemma size_loop_app (id : str) (l1 l2 : list str) (size : str) :
  size_loop id (l1 ++ l2) size
  = if existsb (begins_with id) l1 then size_loop id l1 size
    else size_loop id l2 size.
Proof.
  induction l1 as [|x l1 IH]; [reflexivity|].
  cbn [app Snapper.size_loop existsb]. unfold begins_with at 1.
  destruct (startswith id (strip x)); [reflexivity | exact IH].
Qed.

(** X7. Of two listings put one after the other, the first decides the
    size as soon as one of its lines begins with the identifier, whether
    or not that line holds a size; otherwise the second decides. *)
Theorem first_listing_wins (id out1 out2 : str) :
  find_size id (out1 ++ nl :: out2)
  = if existsb (begins_with id) (split nl out1) then find_size id out1
    else find_size id out2.
Proof. unfold Snapper.find_size. now rewrite split_app, size_loop_app. Qed.

Lemma subvolume_loop_app (l1 l2 : list str) (acc : option str) :
  subvolume_loop (l1 ++ l2) acc
  = match subvolume_loop l1 None with
    | Some s => Some s
    | None => subvolume_loop l2 acc
    end.
Proof.
  induction l1 as [|x l1 IH]; [reflexivity|].
  cbn [app subvolume_loop].
  destruct (contains (u "SUBVOLUME") x); [|exact IH].
  cbv zeta. destruct (2 <=? List.length (split bar x)); [reflexivity | exact IH].
Qed.

(** X8. Of two tables put one after the other, the first that yields a
    subvolume decides. *)
Theorem first_table_wins (out1 out2 : str) :
  find_subvolume (out1 ++ nl :: out2)
  = match find_subvolume out1 with
    | Some s => Some s
    | None => find_subvolume out2
    end.
Proof. unfold find_subvolume. now rewrite split_app, subvolume_loop_app. Qed.

(** X9. A table drawn with no box-drawing bar yields no subvolume. *)
Theorem no_bar_no_subvolume (config_stdout : str) :
  ~ In bar config_stdout -> find_subvolume config_stdout = None.
Proof.
  intros Hbar. unfold find_subvolume.
  rewrite <- (app_nil_r (split nl config_stdout)).
  rewrite subvolume_loop_skip; [reflexivity|].
  intros l Hl. unfold subvolume_line.
  rewrite (split_single bar l).
  - apply andb_false_r.
  - intros Hin. apply Hbar. exact (split_incl nl _ l bar Hl Hin).
Qed.

(** What the loop over the table finds is a trimmed piece of a line cut
    at the bars. *)
Lemma found_subvolume_clean (config_stdout s : str) :
  find_subvolume config_stdout = Some s ->
  strip s = s /\ ~ In nl s /\ ~ In bar s.
Proof.
  unfold find_subvolume. intros H.
  destruct (first_such subvolume_line (split nl config_stdout))
    as [Hnone|(pre & l & post & E & Hpre & Hl)].
  - rewrite <- (app_nil_r (split nl config_stdout)) in H.
    rewrite subvolume_loop_skip in H by assumption. discriminate.
  - rewrite E, subvolume_loop_skip, (subvolume_loop_stop l post None Hl) in H
      by assumption.
    injection H as <-.
    assert (Hin : In l (split nl config_stdout)).
    { rewrite E. apply in_or_app. right. now left. }
    assert (Hpart : In (nth 1 (split bar l) []) (split bar l)).
    { apply nth_In. unfold subvolume_line in Hl.
      apply andb_true_iff in Hl as [_ Hl]. apply Nat.leb_le in Hl. lia. }
    split; [apply strip_idem|]. split.
    + intros Hnl. apply strip_incl in Hnl.
      apply (split_no_sep nl _ l Hin). exact (split_incl bar _ _ nl Hpart Hnl).
    + intros Hb. apply strip_incl in Hb. exact (split_no_sep bar _ _ Hpart Hb).
Qed.

(** X10. The subvolume found is trimmed and holds neither a newline nor a
    bar. *)
Theorem subvolume_clean (config_stdout s : str) :
  find_subvolume config_stdout = Some s ->
  strip s = s /\ ~ In nl s /\ ~ In bar s.
Proof. exact (found_subvolume_clean config_stdout s). Qed.

End Tables.

(** ** More on the runs of the handler *)

Section MoreRuns.

Variable isdecimal : char -> bool.
Variable World : Type.
Variable execute : World -> list str -> CompletedProcess * World.

Local Abbreviation window := (window World).
Local Abbreviation run := (take_snapshot isdecimal execute).

Ltac open_handler :=
  unfold take_snapshot, take_snapshot_m, try_except_finally, try_body,
    handle, bind, ret, raise, subprocess_run, showMessage, setEnabled,
    logger, message, clear_input.

Ltac fields :=
  cbn [fst snd comment_input snap_button status_bar boxes log spawns os
       returncode stdout stderr set_text].

Ltac branches :=
  repeat (fields; match goal with
    | |- context [execute ?o ?a] => destruct (execute o a) eqn:?
    | |- context [if ?b then _ else _] => destruct b eqn:?
    end); fields.

(** X11. The warning is shown exactly for the texts made of white space
    only, the empty one among them. *)
Theorem rejected_iff_blank (w : window) :
  boxes (run w) = boxes w ++ [warning_box]
  <-> forallb isspace (comment_input w) = true.
Proof.
  split.
  - intros Hbox.
    destruct (take_snapshot_outcome isdecimal World execute w)
      as (new & box & Hout & _ & Hb).
    rewrite Hb in Hbox. apply app_inv_head in Hbox. injection Hbox as ->.
    apply strip_nil_blank. inversion Hout; assumption.
  - intros H. rewrite rejected_run by now apply strip_blank. reflexivity.
Qed.

(** X12. The description handed to the create command is not empty and
    neither begins nor ends with white space; it is one argument of
    eight, the other seven fixed. *)
Theorem create_description_trimmed
    (w : window) (new : list spawned) (p : spawned) :
  spawns (run w) = spawns w ++ new ->
  In p new ->
  nth 2 (argv p) [] = u "create" ->
  exists d,
    argv p = [u "sudo"; u "snapper"; u "create"; u "--description"; d;
              u "--type"; u "single"; u "--print-number"]
    /\ d <> [] /\ lstrip d = d /\ rstrip d = d.
Proof.
  intros Hs Hin Hcreate.
  destruct (take_snapshot_outcome isdecimal World execute w)
    as (new0 & box & Hout & Hs0 & _).
  rewrite Hs0 in Hs. apply app_inv_head in Hs. subst new0. clear Hs0.
  assert (Hp : strip (comment_input w) <> []
               /\ argv p = create_argv (strip (comment_input w))).
  { destruct Hout; cbn [In] in Hin;
      repeat destruct Hin as [<-|Hin]; try destruct Hin;
      try (split; [assumption | reflexivity]);
      exfalso; revert Hcreate; apply not_create; cbn [argv spawn]; auto. }
  destruct Hp as [Hc Hp]. exists (strip (comment_input w)).
  split; [exact Hp|]. split; [exact Hc|].
  split; [apply strip_lstrip | apply strip_rstrip].
Qed.

(** X13. The success box is shown only after all three processes exited
    with zero, with an identifier that is not empty and a subvolume that
    is not empty, is trimmed and holds neither a newline nor a bar. *)
Theorem success_needs_all (w : window) (text : str) :
  boxes (run w) = boxes w ++ [success_box text] ->
  exists r1 r2 r3 subvolume,
    spawns (run w)
    = spawns w ++ [spawn (create_argv (strip (comment_input w))) r1;
                   spawn config_argv r2; spawn list_argv r3]
    /\ returncode r1 = 0%Z /\ returncode r2 = 0%Z /\ returncode r3 = 0%Z
    /\ strip (stdout r1) <> []
    /\ find_subvolume (stdout r2) = Some subvolume
    /\ subvolume <> [] /\ strip subvolume = subvolume
    /\ ~ In nl subvolume /\ ~ In bar subvolume.
Proof.
  intros Hbox.
  destruct (take_snapshot_outcome isdecimal World execute w)
    as (new & box & Hout & Hs & Hb).
  rewrite Hb in Hbox. apply app_inv_head in Hbox.
  injection Hbox as ->. rewrite Hs. clear Hs Hb.
  inversion Hout; subst.
  exists r1, r2, r3, subvolume.
  match goal with
  | H : find_subvolume _ = Some _ |- _ =>
      destruct (found_subvolume_clean _ _ H) as (Hstrip & Hnl & Hbar)
  end.
  repeat split; auto.
Qed.

(** X14. The status bar tells the box: it is left as it was by the
    warning, and reads success after the success box and error after an
    error box; the message set while the processes run never stays. *)
Theorem status_bar_follows_box (w : window) :
  exists box,
    boxes (run w) = boxes w ++ [box]
    /\ status_bar (run w)
       = match box_icon box with
         | Warning => status_bar w
         | Information => u "Snapshot created successfully"
         | Critical => u "Error creating snapshot"
         end.
Proof.
  open_handler.
  destruct (falsy (strip (comment_input w))) eqn:Hc.
  - fields. now eexists.
  - branches; now eexists.
Qed.

(** X15. An error box is logged: the records a click adds to the log hold
    one record of level ERROR, with the text of the box, when the box is
    an error box, and none otherwise. *)
Theorem errors_are_logged (w : window) :
  exists box entries,
    boxes (run w) = boxes w ++ [box]
    /\ log (run w) = log w ++ entries
    /\ filter is_error entries
       = match box_icon box with
         | Critical => [(ERROR, box_text box)]
         | Warning | Information => []
         end.
Proof.
  open_handler.
  destruct (falsy (strip (comment_input w))) eqn:Hc.
  - fields. exists warning_box, []. now rewrite app_nil_r.
  - branches; rewrite <- ?app_assoc; cbn [app];
      (eexists; eexists; split; [reflexivity|]; split; [reflexivity|]);
      reflexivity.
Qed.

(** The two runs, with the line edit emptied after each, are one. *)
Lemma trimmed_text_run (text : str) (w : window) :
  set_text [] (run (set_text text w))
  = set_text [] (run (set_text (strip text) w)).
Proof.
  open_handler. fields. rewrite strip_idem.
  destruct (falsy (strip text)) eqn:Hc.
  - reflexivity.
  - branches; reflexivity.
Qed.

(** X17. White space around the description changes nothing but the text
    left in the line edit: the processes, the boxes, the status bar,
    the log, the button and the system are the same with the text as
    typed and with the text trimmed. *)
Theorem surrounding_space_ignored (text : str) (w : window) :
  let typed := run (set_text text w) in
  let trimmed := run (set_text (strip text) w) in
  spawns typed = spawns trimmed
  /\ boxes typed = boxes trimmed
  /\ status_bar typed = status_bar trimmed
  /\ log typed = log trimmed
  /\ snap_button typed = snap_button trimmed
  /\ os typed = os trimmed.
Proof.
  intros typed trimmed.
  pose proof (trimmed_text_run text w) as E. fold typed trimmed in E.
  repeat split.
  - exact (f_equal (@spawns World) E).
  - exact (f_equal (@boxes World) E).
  - exact (f_equal (@status_bar World) E).
  - exact (f_equal (@log World) E).
  - exact (f_equal (@snap_button World) E).
  - exact (f_equal (@os World) E).
Qed.

(** X18. A session shows one box for each click, and spawns at most three
    processes for each. *)
Theorem one_box_per_click (texts : list str) (w : window) :
  List.length (boxes (session isdecimal execute texts w))
  = List.length (boxes w) + List.length texts
  /\ List.length (spawns (session isdecimal execute texts w))
     <= List.length (spawns w) + 3 * List.length texts.
Proof.
  revert w. induction texts as [|text texts IH]; intros w.
  - cbn [session List.length]. lia.
  - cbn [session]. destruct (IH (run (set_text text w))) as [Hb Hs].
    destruct (take_snapshot_outcome isdecimal World execute (set_text text w))
      as (new & box & Hout & Es & Eb).
    rewrite Hb, Eb. rewrite Es in Hs.
    rewrite !length_app in *. cbn [set_text boxes spawns List.length] in *.
    assert (Hnew : List.length new <= 3) by (destruct Hout; cbn; lia).
    lia.
Qed.

End MoreRuns.

(** ** The facts above on tables as the tool prints them *)

Lemma search_leftmost_witness :
  exists a b,
    u "12 | single | 364.00 KiB | x" = a ++ u "364.00 KiB" ++ b
    /\ Re.size_token Re.ascii_digit (u "364.00 KiB")
    /\ forall a' tok b',
         u "12 | single | 364.00 KiB | x" = a' ++ tok ++ b' ->
         Re.size_token Re.ascii_digit tok ->
         List.length a <= List.length a'.
Proof.
  apply (search_leftmost Re.ascii_digit
           (u "12 | single | 364.00 KiB | x") (u "364.00 KiB")).
  vm_compute. reflexivity.
Defined.

Lemma token_row_gives_size_witness :
  Re.size_token Re.ascii_digit (find_size Re.ascii_digit (u "12") listing)
  /\ find_size Re.ascii_digit (u "12") listing <> u "Unknown".
Proof.
  apply (token_row_gives_size Re.ascii_digit (u "12") listing
           [u " # | Type   | Used Space | Description";
            u "11 | single | 16.00 KiB  | before"]
           (u "12 | single | 364.00 KiB | x") [[]]
           (u "12 | single | ") (u "364.00 KiB") (u " | x")).
  - reflexivity.
  - intros l [<-|[<-|[]]]; reflexivity.
  - reflexivity.
  - reflexivity.
  - apply (size_pattern_sound Re.ascii_digit (u "364.00 KiB") 10). reflexivity.
Defined.

Lemma multiline_identifier_unknown_witness :
  find_size Re.ascii_digit (u "12" ++ [nl] ++ u "13") listing = u "Unknown".
Proof.
  apply (multiline_identifier_unknown Re.ascii_digit
           (u "12" ++ [nl] ++ u "13") listing).
  right. right. left. reflexivity.
Defined.

Lemma no_bar_no_subvolume_witness :
  find_subvolume (u "SUBVOLUME | /home") = None.
Proof.
  apply (no_bar_no_subvolume (u "SUBVOLUME | /home")).
  vm_compute. intros H. repeat destruct H as [H|H]; try discriminate H.
  exact H.
Defined.

Lemma subvolume_clean_witness :
  strip (u "/home") = u "/home"
  /\ ~ In nl (u "/home") /\ ~ In bar (u "/home").
Proof.
  apply (subvolume_clean config_table (u "/home")).
  vm_compute. reflexivity.
Defined.

Lemma create_description_trimmed_witness :
  exists d,
    create_argv (u "my  snapshot")
    = [u "sudo"; u "snapper"; u "create"; u "--description"; d;
       u "--type"; u "single"; u "--print-number"]
    /\ d <> [] /\ lstrip d = d /\ rstrip d = d.
Proof.
  apply (create_description_trimmed Re.ascii_digit script play
           (fresh (u "  my  snapshot ") [failed 1 (u "no")])
           [spawn (create_argv (u "my  snapshot")) (failed 1 (u "no"))]
           (spawn (create_argv (u "my  snapshot")) (failed 1 (u "no")))).
  - vm_compute. reflexivity.
  - left. reflexivity.
  - reflexivity.
Defined.

Lemma success_needs_all_witness :
  exists r1 r2 r3 subvolume,
    spawns (click (u " x ") [ok (u "12" ++ [nl]); ok config_table; ok listing])
    = [] ++ [spawn (create_argv (strip (u " x "))) r1;
             spawn config_argv r2; spawn list_argv r3]
    /\ returncode r1 = 0%Z /\ returncode r2 = 0%Z /\ returncode r3 = 0%Z
    /\ strip (stdout r1) <> []
    /\ find_subvolume (stdout r2) = Some subvolume
    /\ subvolume <> [] /\ strip subvolume = subvolume
    /\ ~ In nl subvolume /\ ~ In bar subvolume.
Proof.
  apply (success_needs_all Re.ascii_digit script play
           (fresh (u " x ") [ok (u "12" ++ [nl]); ok config_table; ok listing])
           (u "Snapshot #12 created successfully!" ++ [nl; nl]
              ++ u "Size: 364.00 KiB" ++ [nl]
              ++ u "Location: /home/.snapshots/12/snapshot")).
  vm_compute. reflexivity.
Defined.
